(** * github-folder-downloader: the traversal and retrieval engine of main.py

    A shallow embedding of [list_directory_contents], [download_file] and
    [process_directory], with the network, the local disk and the clock
    made explicit, and the properties of the walk proved over it. *)

From Stdlib Require Import ZArith NArith QArith.
From Stdlib.Strings Require Import Byte Ascii String.
From stdpp Require Import base strings list gmap.

Local Open Scope Z_scope.
Local Open Scope string_scope.
Local Open Scope list_scope.

(** ** Bytes and text *)

(** A Python [bytes] value. *)
Abbreviation bytes := (list byte).

(** A Python [str] holding file text: its Unicode code points.  Names,
    paths and URLs, which the program only concatenates and compares
    with ASCII literals, are kept as [string]. *)
Abbreviation unicode := (list N).

#[export] Instance byte_eq_dec : EqDecision byte := Byte.byte_eq_dec.

Definition continuation (n : N) : bool := ((0x80 <=? n) && (n <=? 0xBF))%N.

Definition low6 (n : N) : N := N.land n 0x3F.

(** [bytes.decode('utf-8')] with the default strict error handler:
    [None] stands for [UnicodeDecodeError].  A sequence is accepted in
    shortest form only, never for a surrogate, never above U+10FFFF. *)
Fixpoint decode_utf8 (bs : bytes) : option unicode :=
  match bs with
  | [] => Some []
  | b0 :: r0 =>
    let n0 := Byte.to_N b0 in
    if (n0 <? 0x80)%N then cons n0 <$> decode_utf8 r0
    else if (n0 <? 0xC0)%N then None
    else if (n0 <? 0xE0)%N then
      match r0 with
      | b1 :: r1 =>
        let n1 := Byte.to_N b1 in
        let cp := N.lor (N.shiftl (N.land n0 0x1F) 6) (low6 n1) in
        if continuation n1 && (0x80 <=? cp)%N
        then cons cp <$> decode_utf8 r1 else None
      | _ => None
      end
    else if (n0 <? 0xF0)%N then
      match r0 with
      | b1 :: b2 :: r2 =>
        let n1 := Byte.to_N b1 in
        let n2 := Byte.to_N b2 in
        let cp := N.lor (N.shiftl (N.land n0 0x0F) 12)
                        (N.lor (N.shiftl (low6 n1) 6) (low6 n2)) in
        if continuation n1 && continuation n2 && (0x800 <=? cp)%N
           && negb ((0xD800 <=? cp) && (cp <=? 0xDFFF))%N
        then cons cp <$> decode_utf8 r2 else None
      | _ => None
      end
    else if (n0 <? 0xF8)%N then
      match r0 with
      | b1 :: b2 :: b3 :: r3 =>
        let n1 := Byte.to_N b1 in
        let n2 := Byte.to_N b2 in
        let n3 := Byte.to_N b3 in
        let cp := N.lor (N.shiftl (N.land n0 0x07) 18)
                        (N.lor (N.shiftl (low6 n1) 12)
                               (N.lor (N.shiftl (low6 n2) 6) (low6 n3))) in
        if continuation n1 && continuation n2 && continuation n3
           && (0x10000 <=? cp)%N && (cp <=? 0x10FFFF)%N
        then cons cp <$> decode_utf8 r3 else None
      | _ => None
      end
    else None
  end.



(** ** Paths *)

(** [str.startswith]. *)
Definition startswith (s p : string) : bool := String.prefix p s.

(** [str.endswith] for a one-character suffix. *)
Fixpoint endswith_char (s : string) (c : ascii) : bool :=
  match s with
  | EmptyString => false
  | String a EmptyString => bool_decide (a = c)
  | String _ s' => endswith_char s' c
  end.

(** [os.path.join(a, b)] (posixpath): an absolute [b] replaces [a]; an
    empty [a] or one that ends in a slash takes [b] as it is; otherwise
    a slash is put between them. *)
Definition os_path_join (a b : string) : string :=
  if startswith b "/" then b
  else if bool_decide (a = "") || endswith_char a "/" then a +:+ b
  else a +:+ "/" +:+ b.

(** ** The remote, the local disk, the clock *)

(** The value of one field of a JSON object, as far as the program looks
    at it: a string, or any other JSON value. *)
Inductive JValue := JStr (s : string) | JOther.

#[export] Instance JValue_eq_dec : EqDecision JValue.
Proof. solve_decision. Defined.

(** One entry of a directory listing: [item['name']], [item['path']] and
    [item['type']], all strings. *)
Record Item := { item_name : string; item_path : string; item_type : string }.

(** What [response.json()] returns: an array of entries, an object, a
    string, or a scalar ([null], a number, a boolean). *)
Inductive Json :=
| JArray (items : list Item)
| JObject (fields : gmap string JValue)
| JString (s : string)
| JScalar.

(** A [requests.Response].  [json = None] when [response.json()] raises.
    [text] is the body decoded by [requests] with the charset the reply
    declares (or the one it guesses when none is declared); it is the
    UTF-8 decoding of [content] only when that charset is UTF-8. *)
Record Response := {
  status_code : Z;
  json : option Json;
  content : bytes;
  text : unicode }.

Abbreviation Auth := (string * string)%type.

(** What lies outside the program and is fixed during a run: the reply
    of the remote to each GET ([None]: [requests.get] raises, on a
    timeout or a connection error), and the paths at which the local
    disk refuses [open] or [os.makedirs] with an [OSError]. *)
Record Env := {
  remote : string → Auth → option Response;
  open_refused : string → bool;
  makedirs_refused : string → bool }.

Inductive FileMode := mode_w | mode_wb.

(** What a file holds: the [str] written in text mode (encoding utf-8),
    or the [bytes] written in binary mode. *)
Inductive FileData := TextFile (s : unicode) | BinaryFile (b : bytes).

#[export] Instance FileData_eq_dec : EqDecision FileData.
Proof. solve_decision. Defined.

Definition empty_file (m : FileMode) : FileData :=
  match m with mode_w => TextFile [] | mode_wb => BinaryFile [] end.

(** The effects of the program, in the order it performs them.  Logging
    is left out: it never changes the control flow. *)
Inductive Event :=
| Get (url : string) (auth : Auth) (timeout : Z)
| Makedirs (d : string)
| Open (p : string) (m : FileMode)
| Write (p : string) (data : FileData)
| Sleep (lo hi : Q).

Record World := {
  files : gmap string FileData;
  dirs : gset string;
  log : list Event }.

Definition apply_event (e : Event) (w : World) : World :=
  match e with
  | Get _ _ _ | Sleep _ _ =>
      {| files := files w; dirs := dirs w; log := log w ++ [e] |}
  | Makedirs d =>
      {| files := files w; dirs := {[d]} ∪ dirs w; log := log w ++ [e] |}
  | Open p m =>
      {| files := <[p := empty_file m]> (files w); dirs := dirs w;
         log := log w ++ [e] |}
  | Write p data =>
      {| files := <[p := data]> (files w); dirs := dirs w;
         log := log w ++ [e] |}
  end.

Definition play (t : list Event) (w : World) : World :=
  foldl (λ w e, apply_event e w) w t.

(** ** Computations: state, exceptions, fuel *)

Inductive exn :=
| RequestException | ValueError | UnicodeDecodeError | TypeError | OSError.

Inductive outcome (A : Type) :=
| Return (a : A)
| Raise (e : exn)
| OutOfFuel.
Arguments Return {A} a.
Arguments Raise {A} e.
Arguments OutOfFuel {A}.

Definition M (A : Type) : Type := World → outcome A * World.

#[export] Instance M_ret : MRet M := λ A a w, (Return a, w).

#[export] Instance M_bind : MBind M := λ A B k m w,
  match m w with
  | (Return a, w') => k a w'
  | (Raise e, w') => (Raise e, w')
  | (OutOfFuel, w') => (OutOfFuel, w')
  end.

Definition raise {A} (e : exn) : M A := λ w, (Raise e, w).

Definition out_of_fuel {A} : M A := λ w, (OutOfFuel, w).

(** [try: m except Exception as e: h e]. *)
Definition try_except {A} (m : M A) (h : exn → M A) : M A := λ w,
  match m w with
  | (Raise e, w') => h e w'
  | r => r
  end.

Definition emit (e : Event) : M unit := λ w, (Return tt, apply_event e w).

(** [for item in items: acc = body item acc]. *)
Fixpoint for_each {A S} (items : list A) (acc : S) (body : A → S → M S) : M S :=
  match items with
  | [] => mret acc
  | item :: rest => acc' ← body item acc; for_each rest acc' body
  end.

(** ** The program *)

(** The two URLs the program formats: the contents API at a commit
    ([api_url] in both [list_directory_contents] and [download_file]) and
    the raw endpoint ([raw_url]). *)
Definition contents_url (username repo path commit_hash : string) : string :=
  "https://api.github.com/repos/" +:+ username +:+ "/" +:+ repo
  +:+ "/contents/" +:+ path +:+ "?ref=" +:+ commit_hash.

Definition raw_content_url (username repo commit_hash file_path : string) : string :=
  "https://raw.githubusercontent.com/" +:+ username +:+ "/" +:+ repo
  +:+ "/" +:+ commit_hash +:+ "/" +:+ file_path.

Section Program.

(** [base64.b64decode] on a [str]; [None] when it raises
    ([binascii.Error], a [ValueError]). *)
Variable b64decode : string → option bytes.

Variable env : Env.

(** [requests.get(url, auth=auth, timeout=timeout)]. *)
Definition requests_get (url : string) (auth : Auth) (timeout : Z) : M Response :=
  emit (Get url auth timeout);;
  match remote env url auth with
  | Some response => mret response
  | None => raise RequestException
  end.

(** [response.json()]. *)
Definition response_json (response : Response) : M Json :=
  match json response with
  | Some j => mret j
  | None => raise ValueError
  end.

(** [b.decode('utf-8')]. *)
Definition bytes_decode (b : bytes) : M unicode :=
  match decode_utf8 b with
  | Some s => mret s
  | None => raise UnicodeDecodeError
  end.

(** [base64.b64decode(v)] on a JSON value: a [TypeError] on anything
    that is not a string. *)
Definition base64_b64decode (v : JValue) : M bytes :=
  match v with
  | JStr s =>
      match b64decode s with
      | Some b => mret b
      | None => raise ValueError
      end
  | JOther => raise TypeError
  end.

(** [os.makedirs(d, exist_ok=True)]. *)
Definition os_makedirs (d : string) : M unit :=
  if makedirs_refused env d then raise OSError else emit (Makedirs d).

(** [open(p, mode, encoding=...)]: creates or truncates the file. *)
Definition open_file (p : string) (m : FileMode) : M unit :=
  if open_refused env p then raise OSError else emit (Open p m).

(** [f.write(data)] on the file just opened at [p]. *)
Definition f_write (p : string) (data : FileData) : M unit :=
  emit (Write p data).

(** [time.sleep(random.uniform(lo, hi))]. *)
Definition time_sleep_uniform (lo hi : Q) : M unit := emit (Sleep lo hi).

(** [list_directory_contents] (main.py, lines 50-68). *)
Definition list_directory_contents
    (username repo path commit_hash : string) (auth : Auth) : M (Json * bool) :=
  let api_url := contents_url username repo path commit_hash in
  try_except
    (response ← requests_get api_url auth 15;
     if bool_decide (status_code response = 200) then
       contents ← response_json response;
       mret (contents, true)
     else
       mret (JArray [], false))
    (λ _, mret (JArray [], false)).

(** [download_file] (main.py, lines 71-151).  The inner block yields
    [true] where the source executes [return True] and [false] where
    control leaves the [if]/[try] towards the raw URL. *)
Definition download_file
    (username repo file_path file_name output_dir commit_hash : string)
    (auth : Auth) : M bool :=
  let api_url := contents_url username repo file_path commit_hash in
  let raw_url := raw_content_url username repo commit_hash file_path in
  try_except
    (api_response ← requests_get api_url auth 15;
     returned ←
       (if bool_decide (status_code api_response = 200) then
          try_except
            (content_data ← response_json api_response;
             match content_data with
             | JObject d =>
               if bool_decide (d !! "type" = Some (JStr "file")) then
                 match d !! "content" with
                 | Some c =>
                   if bool_decide (d !! "encoding" = Some (JStr "base64")) then
                     file_content ← base64_b64decode c;
                     is_binary ←
                       try_except (bytes_decode file_content;; mret false)
                         (λ e, match e with
                               | UnicodeDecodeError => mret true
                               | _ => raise e
                               end);
                     let output_path := os_path_join output_dir file_name in
                     let mode := if is_binary : bool then mode_wb else mode_w in
                     open_file output_path mode;;
                     (if is_binary then
                        f_write output_path (BinaryFile file_content)
                      else
                        s ← bytes_decode file_content;
                        f_write output_path (TextFile s));;
                     mret true
                   else mret false
                 | None => mret false
                 end
               else mret false
             | _ => mret false
             end)
            (λ _, mret false)
        else mret false);
     if returned : bool then mret true
     else
       raw_response ← requests_get raw_url auth 15;
       if bool_decide (status_code raw_response = 200) then
         let output_path := os_path_join output_dir file_name in
         is_binary ←
           try_except (bytes_decode (content raw_response);; mret false)
             (λ e, match e with
                   | UnicodeDecodeError => mret true
                   | _ => raise e
                   end);
         let mode := if is_binary : bool then mode_wb else mode_w in
         open_file output_path mode;;
         (if is_binary then
            f_write output_path (BinaryFile (content raw_response))
          else
            f_write output_path (TextFile (text raw_response)));;
         mret true
       else mret false)
    (λ _, mret false).

(** [for item in contents]: the elements a Python loop draws from the
    JSON value.  An array gives its entries; an object gives its keys
    and a string its characters, both [str]; a scalar is not iterable. *)
Definition py_iter (contents : Json) : M (list (Item + string)) :=
  match contents with
  | JArray items => mret (inl <$> items)
  | JObject d => mret (inr <$> (fst <$> map_to_list d))
  | JString s => mret ((λ c, inr (String c EmptyString)) <$> list_ascii_of_string s)
  | JScalar => raise TypeError
  end.

(** The body of the loop of [process_directory] (main.py, lines
    164-184) for one element, [recurse] being the recursive call. *)
Definition process_entry (recurse : string → M nat)
    (username repo path output_base_dir commit_hash : string) (auth : Auth)
    (item : Item + string) (files_downloaded : nat) : M nat :=
  match item with
  | inr _ => raise TypeError
  | inl item =>
    if startswith (item_name item) "." then mret files_downloaded
    else if bool_decide (item_type item = "file") then
      let relative_path := path in
      let output_dir := os_path_join output_base_dir relative_path in
      os_makedirs output_dir;;
      ok ← download_file username repo (item_path item) (item_name item)
             output_dir commit_hash auth;
      if ok : bool then
        time_sleep_uniform 0.1 0.5;;
        mret (files_downloaded + 1)%nat
      else mret files_downloaded
    else if bool_decide (item_type item = "dir") then
      sub_files ← recurse (item_path item);
      mret (files_downloaded + sub_files)%nat
    else mret files_downloaded
  end.

(** [process_directory] (main.py, lines 154-186).  [fuel] bounds the
    depth of the recursion. *)
Fixpoint process_directory (fuel : nat)
    (username repo path output_base_dir commit_hash : string)
    (auth : Auth) : M nat :=
  match fuel with
  | O => out_of_fuel
  | S fuel' =>
    '(contents, success) ← list_directory_contents username repo path commit_hash auth;
    if negb success then mret 0%nat
    else
      items ← py_iter contents;
      for_each items 0%nat
        (process_entry
           (λ sub, process_directory fuel' username repo sub output_base_dir
                     commit_hash auth)
           username repo path output_base_dir commit_hash auth)
  end.

End Program.

(** ** Parsing the URL *)

(** [s] without the prefix [p], when it starts with it. *)
Fixpoint strip_prefix (p s : string) : option string :=
  match p with
  | EmptyString => Some s
  | String a p' =>
    match s with
    | String b s' => if bool_decide (a = b) then strip_prefix p' s' else None
    | EmptyString => None
    end
  end.

(** The longest prefix of [s] without the character [c], and what
    follows it: how a greedy [[^c]*] splits [s]. *)
Fixpoint span_until (c : ascii) (s : string) : string * string :=
  match s with
  | EmptyString => (EmptyString, EmptyString)
  | String a s' =>
    if bool_decide (a = c) then (EmptyString, s)
    else let '(seg, rest) := span_until c s' in (String a seg, rest)
  end.

(** [([^/]+)/]: a non-empty segment without slash, followed by a slash. *)
Definition segment_slash (s : string) : option (string * string) :=
  match span_until "/" s with
  | (EmptyString, _) => None
  | (seg, String _ rest) => Some (seg, rest)
  | (_, EmptyString) => None
  end.

(** [parse_github_url] (main.py, lines 33-47): [re.match] at the start
    of [url] of the pattern: the literal "https://github.com/", a
    non-empty owner without slash, a slash, a non-empty repository
    without slash, a slash, "tree" or "blob", a slash, a non-empty
    commit without slash, and optionally a slash followed by the path,
    any characters up to the end of the line.  [None] stands for the
    [ValueError].  The match need not reach the end of [url]. *)
Definition parse_github_url (url : string)
    : option (string * string * string * string) :=
  rest ← strip_prefix "https://github.com/" url;
  '(owner, rest) ← segment_slash rest;
  '(repo, rest) ← segment_slash rest;
  rest ← match strip_prefix "tree/" rest with
         | Some rest => Some rest
         | None => strip_prefix "blob/" rest
         end;
  match span_until "/" rest with
  | (EmptyString, _) => None
  | (commit, String _ tail) =>
      (* group 4 matched: [match.group(4) or ""] *)
      Some (owner, repo, commit, (span_until "010" tail).1)
  | (commit, EmptyString) =>
      (* group 4 is [None] *)
      Some (owner, repo, commit, "")
  end.

(** ** The entry point *)

(** What the process is started with: the environment variables, once
    [load_dotenv] has run, and the line [input] returns ([None]: the
    input is at its end and [input] raises [EOFError]). *)
Record Process := {
  environ : gmap string string;
  stdin_line : option string }.

(** How [main] ends: [sys.exit(code)], its normal end after a walk that
    downloaded [files_downloaded] files, an exception that leaves it, or
    a walk cut short by the fuel. *)
Inductive MainResult :=
| Exited (code : Z)
| Completed (files_downloaded : nat)
| Uncaught (e : exn)
| UncaughtEOFError
| Unfinished.

Definition OUTPUT_DIR : string := "github_download".

(** [os.getenv(name)] when it is truthy: set and not empty. *)
Definition getenv_truthy (proc : Process) (name : string) : option string :=
  match environ proc !! name with
  | Some EmptyString => None
  | v => v
  end.

Section Main.

Variable b64decode : string → option bytes.

Variable env : Env.

(** [main] (main.py, lines 189-256).  The authentication probe is a
    request without timeout to the API; it is answered by the remote
    and, carrying no timeout, is not recorded in the log, which holds
    the effects of the walk.  Printing and logging are left out. *)
Definition main (proc : Process) (fuel : nat) (w : World) : MainResult * World :=
  match getenv_truthy proc "GITHUB_USERNAME", getenv_truthy proc "GITHUB_TOKEN" with
  | Some github_username, Some github_token =>
    let auth := (github_username, github_token) in
    let test_url := "https://api.github.com/user" in
    match remote env test_url auth with
    | None => (Exited 1, w)
    | Some response =>
      if bool_decide (status_code response = 200) then
        match json response with
        | Some (JObject user_data) =>
          match stdin_line proc with
          | None => (UncaughtEOFError, w)
          | Some github_url =>
            match parse_github_url github_url with
            | None => (Exited 1, w)
            | Some (repo_owner, repo_name, commit_hash, folder_path) =>
              let download_dir :=
                os_path_join OUTPUT_DIR
                  (repo_name +:+ "_" +:+ substring 0 7 commit_hash) in
              match (os_makedirs env download_dir;;
                     process_directory b64decode env fuel repo_owner repo_name
                       folder_path download_dir commit_hash auth) w with
              | (Return files_downloaded, w') => (Completed files_downloaded, w')
              | (Raise e, w') => (Uncaught e, w')
              | (OutOfFuel, w') => (Unfinished, w')
              end
            end
          end
        | _ => (Exited 1, w)
        end
      else (Exited 1, w)
    end
  | _, _ => (Exited 1, w)
  end.

End Main.

(** ** Well-formed UTF-8 *)

(** Table 3-7 of the Unicode standard, the well-formed UTF-8 byte
    sequences, row by row. *)
Definition between (lo hi n : N) : bool := ((lo <=? n) && (n <=? hi))%N.

Definition row2 (n0 n1 : N) : bool :=
  between 0xC2 0xDF n0 && between 0x80 0xBF n1.

Definition row3 (n0 n1 n2 : N) : bool :=
  (between 0xE0 0xE0 n0 && between 0xA0 0xBF n1
   || between 0xE1 0xEC n0 && between 0x80 0xBF n1
   || between 0xED 0xED n0 && between 0x80 0x9F n1
   || between 0xEE 0xEF n0 && between 0x80 0xBF n1)
  && between 0x80 0xBF n2.

Definition row4 (n0 n1 n2 n3 : N) : bool :=
  (between 0xF0 0xF0 n0 && between 0x90 0xBF n1
   || between 0xF1 0xF3 n0 && between 0x80 0xBF n1
   || between 0xF4 0xF4 n0 && between 0x80 0x8F n1)
  && between 0x80 0xBF n2 && between 0x80 0xBF n3.

Fixpoint well_formed_utf8 (bs : bytes) : bool :=
  match bs with
  | [] => true
  | b0 :: r0 =>
    if between 0x00 0x7F (Byte.to_N b0) then well_formed_utf8 r0
    else
      match r0 with
      | b1 :: r1 =>
        if row2 (Byte.to_N b0) (Byte.to_N b1) then well_formed_utf8 r1
        else
          match r1 with
          | b2 :: r2 =>
            if row3 (Byte.to_N b0) (Byte.to_N b1) (Byte.to_N b2)
            then well_formed_utf8 r2
            else
              match r2 with
              | b3 :: r3 =>
                row4 (Byte.to_N b0) (Byte.to_N b1) (Byte.to_N b2) (Byte.to_N b3)
                && well_formed_utf8 r3
              | [] => false
              end
          | [] => false
          end
      | [] => false
      end
  end.


(** ** Observations on runs *)

(** [runs m o t]: from every world, [m] ends with outcome [o] after
    performing exactly the events [t]. *)
Definition runs {A} (m : M A) (o : outcome A) (t : list Event) : Prop :=
  ∀ w, m w = (o, play t w).

(** [wp m Q]: [m] has one outcome and one trace, whatever the world it
    starts from, and they satisfy [Q]. *)
Definition wp {A} (m : M A) (Q : outcome A → list Event → Prop) : Prop :=
  ∃ o t, runs m o t ∧ Q o t.

Definition is_get (e : Event) : bool :=
  match e with Get _ _ _ => true | _ => false end.

Definition is_write (e : Event) : bool :=
  match e with Write _ _ => true | _ => false end.

Definition is_sleep (e : Event) : bool :=
  match e with Sleep _ _ => true | _ => false end.

(** The number of files persisted during a trace. *)
Definition persisted (t : list Event) : nat := length (filter is_write t).

(** The number of pacing delays during a trace. *)
Definition delays (t : list Event) : nat := length (filter is_sleep t).

(** The empty world, a fresh disk. *)
Definition fresh : World := {| files := ∅; dirs := ∅; log := [] |}.

(** A trace is paced when every file written is first opened and then
    followed at once by one delay drawn from [0.1, 0.5], and no delay
    occurs anywhere else. *)
Inductive Paced : list Event → Prop :=
| Paced_nil : Paced []
| Paced_get url auth timeout t :
    Paced t → Paced (Get url auth timeout :: t)
| Paced_makedirs d t :
    Paced t → Paced (Makedirs d :: t)
| Paced_file p m data t :
    Paced t → Paced (Open p m :: Write p data :: Sleep 0.1 0.5 :: t).

(** What a computation adds to a tally [acc]: a paced trace, and as many to the tally as
    files it persisted. *)
Definition tallies (acc : nat) (o : outcome nat) (t : list Event) : Prop :=
  Paced t ∧ ∀ n, o = Return n → n = (acc + persisted t)%nat.

(** The tally an outcome carries, moved up by [acc]. *)
Definition shift (acc : nat) (o : outcome nat) : outcome nat :=
  match o with
  | Return n => Return (acc + n)%nat
  | o => o
  end.

(** ** Views of the remote *)

(** An entry the walker skips as hidden. *)
Definition hidden (item : Item) : bool := startswith (item_name item) ".".

(** The pair [list_directory_contents] answers for a path, read off the
    remote. *)
Definition listing (env : Env) (username repo path commit_hash : string)
    (auth : Auth) : Json * bool :=
  match remote env (contents_url username repo path commit_hash) auth with
  | Some response =>
      if bool_decide (status_code response = 200) then
        match json response with
        | Some contents => (contents, true)
        | None => (JArray [], false)
        end
      else (JArray [], false)
  | None => (JArray [], false)
  end.

(** The remote presents, from [path] down, a tree of directories less
    than [fuel] levels deep: every listing the walk reaches either fails
    or is an array of entries. *)
Fixpoint presents_tree (env : Env) (fuel : nat)
    (username repo path commit_hash : string) (auth : Auth) : bool :=
  match fuel with
  | O => false
  | S fuel' =>
    match listing env username repo path commit_hash auth with
    | (_, false) => true
    | (JArray items, true) =>
        forallb (λ item,
          hidden item || bool_decide (item_type item = "file")
          || negb (bool_decide (item_type item = "dir"))
          || presents_tree env fuel' username repo (item_path item) commit_hash auth)
          items
    | (_, true) => false
    end
  end.

(** The local disk accepts every directory creation. *)
Definition creates_directories (env : Env) : Prop :=
  ∀ d, makedirs_refused env d = false.

(** ** Erasing entries from listings *)

(** The remote with the entries that [keep] rejects removed from every
    array it answers. *)
Definition erase_json (keep : Item → bool) (j : Json) : Json :=
  match j with
  | JArray items => JArray (List.filter keep items)
  | _ => j
  end.

Definition erase_response (keep : Item → bool) (response : Response) : Response :=
  {| status_code := status_code response;
     json := erase_json keep <$> json response;
     content := content response;
     text := text response |}.

Definition erase (keep : Item → bool) (env : Env) : Env :=
  {| remote := λ url auth, erase_response keep <$> remote env url auth;
     open_refused := open_refused env;
     makedirs_refused := makedirs_refused env |}.

(** An entry whose type is one the walker acts on. *)
Definition file_or_dir (item : Item) : bool :=
  bool_decide (item_type item = "file") || bool_decide (item_type item = "dir").

Definition visible (item : Item) : bool := negb (hidden item).

(** The tally one entry yields when it is processed on its own, from a
    tally of 0 on a fresh disk ([0] when it does not return). *)
Definition entry_tally (b64decode : string → option bytes) (env : Env) (fuel : nat)
    (username repo path output_base_dir commit_hash : string) (auth : Auth)
    (item : Item) : nat :=
  match (process_entry b64decode env
           (λ sub, process_directory b64decode env fuel username repo sub
                     output_base_dir commit_hash auth)
           username repo path output_base_dir commit_hash auth
           (inl item) 0%nat fresh).1 with
  | Return n => n
  | _ => 0%nat
  end.

(** ** Views of a download *)

Inductive Classification := Text | Binary.

(** Modelled from the spec: [classify(bytes)] is Text when the bytes
    decode as UTF-8 and Binary when they do not.  (In the source the
    classifier is the [try]/[except] around [decode('utf-8')], written
    out once per channel inside [download_file].) *)
Definition classify (b : bytes) : Classification :=
  match decode_utf8 b with
  | Some _ => Text
  | None => Binary
  end.

Definition mode_for (k : Classification) : FileMode :=
  match k with Text => mode_w | Binary => mode_wb end.

(** The API reply carries a payload that does not qualify: not an
    object, not of type "file", without content, or not in base64. *)
Definition payload_mismatch (j : Json) : Prop :=
  match j with
  | JObject d =>
      d !! "type" ≠ Some (JStr "file")
      ∨ d !! "content" = None
      ∨ d !! "encoding" ≠ Some (JStr "base64")
  | _ => True
  end.

(** The primary channel yields the bytes [b]: status 200, a file object
    in base64, whose content decodes to [b]. *)
Definition primary_yields (b64decode : string → option bytes) (env : Env)
    (username repo file_path commit_hash : string) (auth : Auth) (b : bytes) : Prop :=
  ∃ response d s,
    remote env (contents_url username repo file_path commit_hash) auth = Some response
    ∧ status_code response = 200
    ∧ json response = Some (JObject d)
    ∧ d !! "type" = Some (JStr "file")
    ∧ d !! "content" = Some (JStr s)
    ∧ d !! "encoding" = Some (JStr "base64")
    ∧ b64decode s = Some b.

(** The fallback channel yields the reply [raw]: the API request was
    answered, with a status other than 200, and the raw endpoint
    answers 200. *)
Definition fallback_yields (env : Env)
    (username repo file_path commit_hash : string) (auth : Auth)
    (raw : Response) : Prop :=
  (∃ response,
     remote env (contents_url username repo file_path commit_hash) auth = Some response
     ∧ status_code response ≠ 200)
  ∧ remote env (raw_content_url username repo commit_hash file_path) auth = Some raw
  ∧ status_code raw = 200.

(** ** The directory component of a path *)

Definition is_slash (a : ascii) : bool := bool_decide (a = "/"%char).

(** The characters from the first slash on. *)
Fixpoint from_first_slash (l : list ascii) : list ascii :=
  match l with
  | [] => []
  | a :: rest => if is_slash a then l else from_first_slash rest
  end.

(** The characters from the first one that is not a slash on. *)
Fixpoint after_slashes (l : list ascii) : list ascii :=
  match l with
  | [] => []
  | a :: rest => if is_slash a then after_slashes rest else l
  end.

(** [os.path.dirname(p)] (posixpath): [head = p[:p.rfind('/') + 1]],
    stripped of its trailing slashes unless it is empty or made of
    slashes only. *)
Definition posixpath_dirname (p : string) : string :=
  let head := reverse (from_first_slash (reverse (list_ascii_of_string p))) in
  if forallb is_slash head then string_of_list_ascii head
  else string_of_list_ascii (reverse (after_slashes (reverse head))).

(** The path the remote gives to the entry [name] of the directory
    [path]: the name alone at the root, else the two joined by a slash. *)
Definition path_under (path name : string) : string :=
  if bool_decide (path = "") then name else path +:+ "/" +:+ name.

(** A name that holds no slash. *)
Definition no_slash (s : string) : bool :=
  forallb (λ a, negb (is_slash a)) (list_ascii_of_string s).

(** The claim as the specification words it: a file entry is stored in
    the output root joined with the directory component of the entry's
    own path, that directory being created first. *)
Definition stored_under_own_dirname (b64decode : string → option bytes) (env : Env)
    (recurse : string → M nat)
    (username repo path output_base_dir commit_hash : string) (auth : Auth)
    (item : Item) : Prop :=
  ∀ acc w,
    let output_dir :=
      os_path_join output_base_dir (posixpath_dirname (item_path item)) in
    ∃ o rest,
      process_entry b64decode env recurse username repo path output_base_dir
        commit_hash auth (inl item) acc w
      = (o, play (Makedirs output_dir :: rest) w)
      ∧ ∀ q m, Open q m ∈ rest → q = os_path_join output_dir (item_name item).

(** ** Sample remotes *)

Module Sample.

(** [base64.b64decode] on the strings the samples use. *)
Definition b64decode (s : string) : option bytes :=
  if bool_decide (s = "aGk=") then Some [x68; x69]
  else if bool_decide (s = "w6k=") then Some [xc3; xa9]
  else if bool_decide (s = "/w==") then Some [xff]
  else None.

Definition reply (code : Z) (j : option Json) (c : bytes) (t : unicode)
    : option Response :=
  Some {| status_code := code; json := j; content := c; text := t |}.

Definition file_object (c : string) : Json :=
  JObject (<["type" := JStr "file"]>
          (<["encoding" := JStr "base64"]>
          (<["content" := JStr c]> ∅))).

Definition entry (n p t : string) : Item :=
  {| item_name := n; item_path := p; item_type := t |}.

(** A remote given by a table of replies; any other URL answers 404. *)
Definition remote_of (table : list (string * option Response))
    : string → Auth → option Response :=
  λ url _, default (reply 404 None [] [])
             ((list_to_map table : gmap string (option Response)) !! url).

Definition env_of (table : list (string * option Response)) : Env :=
  {| remote := remote_of table;
     open_refused := λ _, false;
     makedirs_refused := λ _, false |}.

Definition auth : Auth := ("user", "token").

(** acme/widgets at abcdef1: [src] holds [a.txt], a hidden [.git], the
    directory [sub] (with [b.bin], served by the raw endpoint only,
    and [.hidden]), the directory [bad], whose listing is refused, a
    symbolic link, and [c.txt], on which the API request times out. *)
Definition widgets : Env := env_of [
  ("https://api.github.com/repos/acme/widgets/contents/src?ref=abcdef1",
   reply 200 (Some (JArray [
     entry "a.txt" "src/a.txt" "file";
     entry ".git" "src/.git" "dir";
     entry "sub" "src/sub" "dir";
     entry "bad" "src/bad" "dir";
     entry "link" "src/link" "symlink";
     entry "c.txt" "src/c.txt" "file" ])) [] []);
  ("https://api.github.com/repos/acme/widgets/contents/src/sub?ref=abcdef1",
   reply 200 (Some (JArray [
     entry "b.bin" "src/sub/b.bin" "file";
     entry ".hidden" "src/sub/.hidden" "file" ])) [] []);
  ("https://api.github.com/repos/acme/widgets/contents/src/bad?ref=abcdef1",
   reply 403 None [] []);
  ("https://api.github.com/repos/acme/widgets/contents/src/a.txt?ref=abcdef1",
   reply 200 (Some (file_object "aGk=")) [] []);
  ("https://raw.githubusercontent.com/acme/widgets/abcdef1/src/sub/b.bin",
   reply 200 None [xff] [0xFFFD%N]);
  ("https://api.github.com/repos/acme/widgets/contents/src/c.txt?ref=abcdef1",
   None);
  ("https://raw.githubusercontent.com/acme/widgets/abcdef1/src/c.txt",
   reply 200 None [x68; x69] [0x68%N; 0x69%N]) ].

Definition walk_widgets (fuel : nat) : M nat :=
  process_directory b64decode widgets fuel "acme" "widgets" "src" "out" "abcdef1" auth.

(** The reply of the raw endpoint for a file holding the two bytes of
    U+00E9 in UTF-8, sent as [text/plain] without a charset: [requests]
    then decodes the body as ISO-8859-1, one code point per byte. *)
Definition cafe_raw : Response :=
  {| status_code := 200; json := None;
     content := [xc3; xa9]; text := [0xC3%N; 0xA9%N] |}.

(** The reply of the raw endpoint for a file holding "hi". *)
Definition hi_raw : Response :=
  {| status_code := 200; json := None;
     content := [x68; x69]; text := [0x68%N; 0x69%N] |}.

(** A remote whose listing of [src] holds an entry that lies elsewhere
    in the repository. *)
Definition misfiled : Env := env_of [
  ("https://api.github.com/repos/acme/widgets/contents/src?ref=abcdef1",
   reply 200 (Some (JArray [ entry "a.txt" "lib/a.txt" "file" ])) [] []);
  ("https://api.github.com/repos/acme/widgets/contents/lib/a.txt?ref=abcdef1",
   reply 200 (Some (file_object "aGk=")) [] []) ].

(** A remote on which the contents API answers 404 for every file and
    the raw endpoint serves [cafe.txt] and [hi.txt]. *)
Definition raw_only : Env := env_of [
  ("https://raw.githubusercontent.com/acme/widgets/abcdef1/cafe.txt", Some cafe_raw);
  ("https://raw.githubusercontent.com/acme/widgets/abcdef1/hi.txt", Some hi_raw) ].

End Sample.

(** The listing of a path fails: the request raises, or the status is
    not 200. *)
Definition fails_to_list (env : Env) (username repo path commit_hash : string)
    (auth : Auth) : Prop :=
  match remote env (contents_url username repo path commit_hash) auth with
  | None => True
  | Some response => status_code response ≠ 200
  end.

(** ** Views of URLs and of requests *)

(** The string [s] holds no character [c]. *)
Fixpoint lacks (c : ascii) (s : string) : bool :=
  match s with
  | EmptyString => true
  | String a s' => negb (bool_decide (a = c)) && lacks c s'
  end.

(** The URL of a directory, or of a file, of a repository at a commit,
    as the site shows it. *)
Definition github_url (owner repo kind commit : string) : string :=
  "https://github.com/" +:+ owner +:+ "/" +:+ repo +:+ "/" +:+ kind +:+ "/" +:+ commit.

(** A request of the walk of [username]/[repo] at [commit_hash]: to the
    contents API or to the raw endpoint of that repository at that
    commit, with the credentials [auth] and a timeout of 15.  Events
    that are not requests pass. *)
Definition request_of_walk (username repo commit_hash : string) (auth : Auth)
    (e : Event) : Prop :=
  match e with
  | Get url a timeout =>
      a = auth ∧ timeout = 15
      ∧ ∃ path, url = contents_url username repo path commit_hash
                ∨ url = raw_content_url username repo commit_hash path
  | _ => True
  end.


(** An event stays under [root] when the directory it creates, or the
    file it opens or writes, has a path that starts with [root]. *)
Definition stays_under (root : string) (e : Event) : Prop :=
  match e with
  | Makedirs d => String.prefix root d = true
  | Open q _ | Write q _ => String.prefix root q = true
  | _ => True
  end.

(** A name or path that does not start with a slash. *)
Definition relative (s : string) : bool := negb (startswith s "/").

Definition relative_entries (v : option Response) : bool :=
  match v with
  | Some response =>
      match json response with
      | Some (JArray items) =>
          forallb (λ item, relative (item_name item) && relative (item_path item))
            items
      | _ => true
      end
  | None => true
  end.

(** The remote lists relative names and paths only. *)
Definition lists_relative_names (env : Env) : Prop :=
  ∀ url auth, relative_entries (remote env url auth) = true.


(** ** Views of the entry point *)

(** The process holds the two credentials [main] reads, neither empty. *)
Definition has_credentials (proc : Process) (auth : Auth) : Prop :=
  getenv_truthy proc "GITHUB_USERNAME" = Some auth.1
  ∧ getenv_truthy proc "GITHUB_TOKEN" = Some auth.2.

(** The remote accepts the credentials: the authentication probe of
    [main] is answered with status 200 and a JSON object. *)
Definition signed_in (env : Env) (auth : Auth) : Prop :=
  ∃ response user_data,
    remote env "https://api.github.com/user" auth = Some response
    ∧ status_code response = 200
    ∧ json response = Some (JObject user_data).

(** The directory of a repository at a commit under the output
    directory: the name of the repository, an underscore and the first
    seven characters of the commit. *)
Definition download_dir (repo commit : string) : string :=
  "github_download/" +:+ repo +:+ "_" +:+ substring 0 7 commit.

(** ** More sample remotes *)

Module Cases.

(** The remote of [Sample.widgets] seen from a disk that refuses every
    [open]. *)
Definition read_only : Env :=
  {| remote := remote Sample.widgets;
     open_refused := λ _, true;
     makedirs_refused := λ _, false |}.

(** The same remote seen from a disk that refuses every [os.makedirs]. *)
Definition no_mkdir : Env :=
  {| remote := remote Sample.widgets;
     open_refused := λ _, false;
     makedirs_refused := λ _, true |}.


(** The remote of [Sample.widgets] with the authentication probe
    answered for every credential. *)
Definition logged_in : Env :=
  {| remote := λ url auth,
       if bool_decide (url = "https://api.github.com/user")
       then Sample.reply 200 (Some (JObject {["login" := JStr auth.1]})) [] []
       else remote Sample.widgets url auth;
     open_refused := λ _, false;
     makedirs_refused := λ _, false |}.

(** A process that holds the credentials of [Sample.auth] and reads
    [line] from its input. *)
Definition terminal (line : option string) : Process :=
  {| environ := <["GITHUB_USERNAME" := "user"]> (<["GITHUB_TOKEN" := "token"]> ∅);
     stdin_line := line |}.

End Cases.

(** * Properties *)

(** ** Paths and text on samples *)

Example join_plain : os_path_join "out" "src" = "out/src".
Proof. reflexivity. Qed.
Example join_root : os_path_join "out" "" = "out/".
Proof. reflexivity. Qed.
Example join_abs : os_path_join "out" "/etc" = "/etc".
Proof. reflexivity. Qed.
Example decode_e_acute : decode_utf8 [xc3; xa9]  = Some [0xE9%N].
Proof. reflexivity. Qed.
Example decode_overlong : decode_utf8 [xc0; xaf]  = None.
Proof. reflexivity. Qed.
Example decode_surrogate : decode_utf8 [xed; xa0; x80]  = None.
Proof. reflexivity. Qed.

(** ** UTF-8: the decoder, the table and the encoder *)

(** Bit operations as arithmetic. *)

Lemma land_shiftl_low a x k : (x < 2 ^ k)%N → N.land (N.shiftl a k) x = 0%N.
Proof.
  intros Hx. apply N.bits_inj. intros i. rewrite N.land_spec, N.bits_0.
  destruct (N.lt_ge_cases i k) as [Hik|Hik].
  - by rewrite N.shiftl_spec_low.
  - rewrite andb_comm.
    destruct (N.eq_dec x 0%N) as [->|Hx0]; [by rewrite N.bits_0|].
    rewrite (N.bits_above_log2 x i); [done|].
    apply N.log2_lt_pow2; [lia|].
    eapply N.lt_le_trans; [exact Hx|]. by apply N.pow_le_mono_r.
Qed.

Lemma lor_shiftl_low a x k : (x < 2 ^ k)%N → N.lor (N.shiftl a k) x = (a * 2 ^ k + x)%N.
Proof.
  intros Hx. rewrite <- N.shiftl_mul_pow2.
  rewrite N.add_nocarry_lxor by (by apply land_shiftl_low).
  symmetry. apply N.lxor_lor. by apply land_shiftl_low.
Qed.

Lemma low6_mod n : low6 n = (n mod 64)%N.
Proof. unfold low6. change 0x3F%N with (N.ones 6). by rewrite N.land_ones. Qed.

Lemma land_0x1F n : N.land n 0x1F = (n mod 32)%N.
Proof. change 0x1F%N with (N.ones 5). by rewrite N.land_ones. Qed.

Lemma land_0x0F n : N.land n 0x0F = (n mod 16)%N.
Proof. change 0x0F%N with (N.ones 4). by rewrite N.land_ones. Qed.

Lemma land_0x07 n : N.land n 0x07 = (n mod 8)%N.
Proof. change 0x07%N with (N.ones 3). by rewrite N.land_ones. Qed.

Lemma lor_6 a x : (x < 64)%N → N.lor (N.shiftl a 6) x = (a * 64 + x)%N.
Proof. intros. by rewrite (lor_shiftl_low a x 6). Qed.

Lemma lor_12 a x : (x < 4096)%N → N.lor (N.shiftl a 12) x = (a * 4096 + x)%N.
Proof. intros. by rewrite (lor_shiftl_low a x 12). Qed.

Lemma lor_18 a x : (x < 262144)%N → N.lor (N.shiftl a 18) x = (a * 262144 + x)%N.
Proof. intros. by rewrite (lor_shiftl_low a x 18). Qed.

(** The code points the decoder computes, as sums. *)
Lemma cp2_sum n0 n1 :
  N.lor (N.shiftl (N.land n0 0x1F) 6) (low6 n1) = (n0 mod 32 * 64 + n1 mod 64)%N.
Proof. rewrite low6_mod, land_0x1F, lor_6; [done|]. by apply N.mod_lt. Qed.

Lemma cp3_sum n0 n1 n2 :
  N.lor (N.shiftl (N.land n0 0x0F) 12) (N.lor (N.shiftl (low6 n1) 6) (low6 n2))
  = (n0 mod 16 * 4096 + n1 mod 64 * 64 + n2 mod 64)%N.
Proof.
  rewrite !low6_mod, land_0x0F.
  pose proof (N.mod_lt n1 64 ltac:(done)). pose proof (N.mod_lt n2 64 ltac:(done)).
  rewrite (lor_6 _ (n2 mod 64)) by done. rewrite lor_12 by lia. lia.
Qed.

Lemma cp4_sum n0 n1 n2 n3 :
  N.lor (N.shiftl (N.land n0 0x07) 18)
    (N.lor (N.shiftl (low6 n1) 12) (N.lor (N.shiftl (low6 n2) 6) (low6 n3)))
  = (n0 mod 8 * 262144 + n1 mod 64 * 4096 + n2 mod 64 * 64 + n3 mod 64)%N.
Proof.
  rewrite !low6_mod, land_0x07.
  pose proof (N.mod_lt n1 64 ltac:(done)). pose proof (N.mod_lt n2 64 ltac:(done)).
  pose proof (N.mod_lt n3 64 ltac:(done)).
  rewrite (lor_6 _ (n3 mod 64)) by done. rewrite lor_12 by lia.
  rewrite lor_18 by lia. lia.
Qed.

(** The decoder accepts exactly the rows of the table. *)

Lemma continuation_range n : continuation n = true ↔ (128 ≤ n ≤ 191)%N.
Proof. unfold continuation. rewrite andb_true_iff, !N.leb_le. done. Qed.

Lemma mod_offset n k q : (q * k ≤ n < q * k + k)%N → (n mod k = n - q * k)%N.
Proof.
  intros H. symmetry. apply (N.mod_unique n k q); lia.
Qed.

Lemma continuation_low6 n : continuation n = true → (n mod 64 = n - 128)%N.
Proof. intros H%continuation_range. apply (mod_offset n 64 2). lia. Qed.

(** Turns the boolean comparisons of the goal into hypotheses. *)
Ltac bool_to_prop :=
  unfold row2, row3, row4 in *; unfold between in *;
  repeat match goal with
         | |- context [(?a <=? ?b)%N] =>
             destruct (N.leb_spec a b); try (exfalso; lia)
         | |- context [(?a <? ?b)%N] =>
             destruct (N.ltb_spec a b); try (exfalso; lia)
         end;
  simpl; try reflexivity; try (exfalso; lia).

Lemma continuation_false n : continuation n = false → (n < 128 ∨ 191 < n)%N.
Proof.
  unfold continuation. destruct (N.leb_spec 128 n); [|lia].
  destruct (N.leb_spec n 191); [done|lia].
Qed.

Lemma row2_continuation n0 n1 : continuation n1 = false → row2 n0 n1 = false.
Proof. intros H%continuation_false. bool_to_prop. Qed.

Lemma accept2_row n0 n1 :
  (0xC0 ≤ n0 < 0xE0)%N →
  continuation n1 && (0x80 <=? N.lor (N.shiftl (N.land n0 0x1F) 6) (low6 n1))%N
  = row2 n0 n1.
Proof.
  intros H0. destruct (continuation n1) eqn:H1.
  - rewrite cp2_sum, (continuation_low6 n1 H1), (mod_offset n0 32 6) by lia.
    apply continuation_range in H1. bool_to_prop.
  - by rewrite row2_continuation.
Qed.

Lemma accept3_row n0 n1 n2 :
  (0xE0 ≤ n0 < 0xF0)%N →
  (let cp := N.lor (N.shiftl (N.land n0 0x0F) 12)
                   (N.lor (N.shiftl (low6 n1) 6) (low6 n2)) in
   continuation n1 && continuation n2 && (0x800 <=? cp)%N
   && negb ((0xD800 <=? cp) && (cp <=? 0xDFFF))%N)
  = row3 n0 n1 n2.
Proof.
  intros H0. cbv zeta.
  destruct (continuation n1) eqn:H1; [destruct (continuation n2) eqn:H2|].
  - rewrite cp3_sum, (continuation_low6 n1 H1), (continuation_low6 n2 H2),
      (mod_offset n0 16 14) by lia.
    apply continuation_range in H1, H2. bool_to_prop.
  - apply continuation_false in H2. simpl. bool_to_prop.
  - apply continuation_false in H1. simpl. bool_to_prop.
Qed.

Lemma accept4_row n0 n1 n2 n3 :
  (0xF0 ≤ n0 < 0xF8)%N →
  (let cp := N.lor (N.shiftl (N.land n0 0x07) 18)
                   (N.lor (N.shiftl (low6 n1) 12)
                          (N.lor (N.shiftl (low6 n2) 6) (low6 n3))) in
   continuation n1 && continuation n2 && continuation n3
   && (0x10000 <=? cp)%N && (cp <=? 0x10FFFF)%N)
  = row4 n0 n1 n2 n3.
Proof.
  intros H0. cbv zeta.
  destruct (continuation n1) eqn:H1;
    [destruct (continuation n2) eqn:H2; [destruct (continuation n3) eqn:H3|]|].
  - rewrite cp4_sum, (continuation_low6 n1 H1), (continuation_low6 n2 H2),
      (continuation_low6 n3 H3), (mod_offset n0 8 30) by lia.
    apply continuation_range in H1, H2, H3. bool_to_prop.
  - apply continuation_false in H3. simpl. bool_to_prop.
  - apply continuation_false in H2. simpl. bool_to_prop.
  - apply continuation_false in H1. simpl. bool_to_prop.
Qed.

(** Encoding back what was decoded. *)













(** The decoder against the table and the encoder. *)

Lemma decode_utf8_cons b0 r0 :
  decode_utf8 (b0 :: r0) =
  let n0 := Byte.to_N b0 in
  if (n0 <? 0x80)%N then cons n0 <$> decode_utf8 r0
  else if (n0 <? 0xC0)%N then None
  else if (n0 <? 0xE0)%N then
    match r0 with
    | b1 :: r1 =>
      let n1 := Byte.to_N b1 in
      let cp := N.lor (N.shiftl (N.land n0 0x1F) 6) (low6 n1) in
      if continuation n1 && (0x80 <=? cp)%N
      then cons cp <$> decode_utf8 r1 else None
    | _ => None
    end
  else if (n0 <? 0xF0)%N then
    match r0 with
    | b1 :: b2 :: r2 =>
      let n1 := Byte.to_N b1 in
      let n2 := Byte.to_N b2 in
      let cp := N.lor (N.shiftl (N.land n0 0x0F) 12)
                      (N.lor (N.shiftl (low6 n1) 6) (low6 n2)) in
      if continuation n1 && continuation n2 && (0x800 <=? cp)%N
         && negb ((0xD800 <=? cp) && (cp <=? 0xDFFF))%N
      then cons cp <$> decode_utf8 r2 else None
    | _ => None
    end
  else if (n0 <? 0xF8)%N then
    match r0 with
    | b1 :: b2 :: b3 :: r3 =>
      let n1 := Byte.to_N b1 in
      let n2 := Byte.to_N b2 in
      let n3 := Byte.to_N b3 in
      let cp := N.lor (N.shiftl (N.land n0 0x07) 18)
                      (N.lor (N.shiftl (low6 n1) 12)
                             (N.lor (N.shiftl (low6 n2) 6) (low6 n3))) in
      if continuation n1 && continuation n2 && continuation n3
         && (0x10000 <=? cp)%N && (cp <=? 0x10FFFF)%N
      then cons cp <$> decode_utf8 r3 else None
    | _ => None
    end
  else None.
Proof. reflexivity. Qed.

Lemma row2_out n0 n1 : ¬ (0xC2 ≤ n0 ≤ 0xDF)%N → row2 n0 n1 = false.
Proof. intros H. bool_to_prop. Qed.

Lemma row3_out n0 n1 n2 : ¬ (0xE0 ≤ n0 ≤ 0xEF)%N → row3 n0 n1 n2 = false.
Proof. intros H. bool_to_prop. Qed.

Lemma row4_out n0 n1 n2 n3 : ¬ (0xF0 ≤ n0 ≤ 0xF4)%N → row4 n0 n1 n2 n3 = false.
Proof. intros H. bool_to_prop. Qed.

Lemma well_formed_utf8_unfold b0 r0 :
  well_formed_utf8 (b0 :: r0) =
  if between 0x00 0x7F (Byte.to_N b0) then well_formed_utf8 r0
  else
    match r0 with
    | b1 :: r1 =>
      if row2 (Byte.to_N b0) (Byte.to_N b1) then well_formed_utf8 r1
      else
        match r1 with
        | b2 :: r2 =>
          if row3 (Byte.to_N b0) (Byte.to_N b1) (Byte.to_N b2)
          then well_formed_utf8 r2
          else
            match r2 with
            | b3 :: r3 =>
              row4 (Byte.to_N b0) (Byte.to_N b1) (Byte.to_N b2) (Byte.to_N b3)
              && well_formed_utf8 r3
            | [] => false
            end
        | [] => false
        end
    | [] => false
    end.
Proof. reflexivity. Qed.

(** The table, read by the class of the first byte. *)
Lemma well_formed_utf8_cons b0 r0 :
  well_formed_utf8 (b0 :: r0) =
  let n0 := Byte.to_N b0 in
  if (n0 <? 0x80)%N then well_formed_utf8 r0
  else if (n0 <? 0xC0)%N then false
  else if (n0 <? 0xE0)%N then
    match r0 with
    | b1 :: r1 => row2 n0 (Byte.to_N b1) && well_formed_utf8 r1
    | _ => false
    end
  else if (n0 <? 0xF0)%N then
    match r0 with
    | b1 :: b2 :: r2 =>
      row3 n0 (Byte.to_N b1) (Byte.to_N b2) && well_formed_utf8 r2
    | _ => false
    end
  else if (n0 <? 0xF8)%N then
    match r0 with
    | b1 :: b2 :: b3 :: r3 =>
      row4 n0 (Byte.to_N b1) (Byte.to_N b2) (Byte.to_N b3) && well_formed_utf8 r3
    | _ => false
    end
  else false.
Proof.
  rewrite well_formed_utf8_unfold. cbv zeta. generalize (Byte.to_N b0). intros n0.
  unfold between at 1.
  destruct (N.ltb_spec n0 0x80) as [H1|H1].
  { destruct (N.leb_spec 0 n0); [|lia]. by destruct (N.leb_spec n0 0x7F); [|lia]. }
  replace ((0 <=? n0)%N && (n0 <=? 0x7F)%N) with false
    by (destruct (N.leb_spec n0 0x7F); [lia|by rewrite andb_false_r]).
  destruct (N.ltb_spec n0 0xC0) as [H2|H2].
  { destruct r0 as [|b1 [|b2 [|b3 r3]]];
      rewrite ?row2_out, ?row3_out, ?row4_out by lia; done. }
  destruct (N.ltb_spec n0 0xE0) as [H3|H3].
  { destruct r0 as [|b1 r1]; [done|].
    destruct (row2 n0 (Byte.to_N b1)); [done|].
    destruct r1 as [|b2 [|b3 r3]];
      rewrite ?row3_out, ?row4_out by lia; done. }
  destruct (N.ltb_spec n0 0xF0) as [H4|H4].
  { destruct r0 as [|b1 [|b2 r2]]; rewrite ?row2_out by lia; [done..|].
    destruct (row3 n0 (Byte.to_N b1) (Byte.to_N b2)); [done|].
    destruct r2 as [|b3 r3]; rewrite ?row4_out by lia; done. }
  destruct (N.ltb_spec n0 0xF8) as [H5|H5].
  { destruct r0 as [|b1 [|b2 [|b3 r3]]];
      rewrite ?row2_out, ?row3_out by lia; done. }
  destruct r0 as [|b1 [|b2 [|b3 r3]]];
    rewrite ?row2_out, ?row3_out, ?row4_out by lia; done.
Qed.

(** A byte sequence decodes exactly when it is well formed. *)
Lemma decode_utf8_well_formed bs :
  is_Some (decode_utf8 bs) ↔ well_formed_utf8 bs = true.
Proof.
  remember (length bs) as n eqn:Hn. revert bs Hn.
  induction n as [n IH] using lt_wf_ind. intros bs ->.
  destruct bs as [|b0 r0]; [by split; eauto|].
  rewrite decode_utf8_cons, well_formed_utf8_cons. cbv zeta.
  generalize (Byte.to_N b0). intros n0.
  destruct (N.ltb_spec n0 0x80) as [H1|H1].
  { rewrite fmap_is_Some. apply (IH (length r0)); simpl; [lia|done]. }
  destruct (N.ltb_spec n0 0xC0) as [H2|H2].
  { split; [by intros [? ?]|done]. }
  destruct (N.ltb_spec n0 0xE0) as [H3|H3].
  { destruct r0 as [|b1 r1]; [split; [by intros [? ?]|done]|].
    rewrite accept2_row by lia. destruct (row2 _ _); simpl.
    - rewrite fmap_is_Some. apply (IH (length r1)); simpl; [lia|done].
    - split; [by intros [? ?]|done]. }
  destruct (N.ltb_spec n0 0xF0) as [H4|H4].
  { destruct r0 as [|b1 [|b2 r2]]; try (split; [by intros [? ?]|done]).
    pose proof (accept3_row n0 (Byte.to_N b1) (Byte.to_N b2)) as Hacc.
    cbv zeta in Hacc. rewrite Hacc by lia. destruct (row3 _ _ _); simpl.
    - rewrite fmap_is_Some. apply (IH (length r2)); simpl; [lia|done].
    - split; [by intros [? ?]|done]. }
  destruct (N.ltb_spec n0 0xF8) as [H5|H5].
  { destruct r0 as [|b1 [|b2 [|b3 r3]]]; try (split; [by intros [? ?]|done]).
    pose proof (accept4_row n0 (Byte.to_N b1) (Byte.to_N b2) (Byte.to_N b3)) as Hacc.
    cbv zeta in Hacc. rewrite Hacc by lia. destruct (row4 _ _ _ _); simpl.
    - rewrite fmap_is_Some. apply (IH (length r3)); simpl; [lia|done].
    - split; [by intros [? ?]|done]. }
  split; [by intros [? ?]|done].
Qed.






(** ** Traces and worlds *)

Lemma play_nil w : play [] w = w.
Proof. reflexivity. Qed.

Lemma play_cons e t w : play (e :: t) w = play t (apply_event e w).
Proof. reflexivity. Qed.

Lemma play_app t1 t2 w : play (t1 ++ t2) w = play t2 (play t1 w).
Proof. unfold play. apply foldl_app. Qed.

Lemma log_apply_event e w : log (apply_event e w) = log w ++ [e].
Proof. by destruct e. Qed.

Lemma log_play t w : log (play t w) = log w ++ t.
Proof.
  revert w. induction t as [|e t IH]; intros w.
  - by rewrite app_nil_r.
  - rewrite play_cons, IH, log_apply_event, <- app_assoc. reflexivity.
Qed.

Lemma runs_det {A} (m : M A) o1 t1 o2 t2 :
  runs m o1 t1 → runs m o2 t2 → o1 = o2 ∧ t1 = t2.
Proof.
  intros H1 H2. specialize (H1 fresh). rewrite (H2 fresh) in H1.
  inversion H1 as [[Ho Hw]]. split; [done|].
  apply (f_equal log) in Hw. by rewrite !log_play in Hw.
Qed.

(** ** A weakest-precondition calculus for the computations *)

Lemma wp_mono {A} (m : M A) (Q Q' : outcome A → list Event → Prop) :
  wp m Q → (∀ o t, Q o t → Q' o t) → wp m Q'.
Proof. intros (o & t & Hr & HQ) HQQ'. exists o, t. auto. Qed.

Lemma wp_ret {A} (a : A) Q : Q (Return a) [] → wp (mret a) Q.
Proof. intros HQ. by exists (Return a), []. Qed.

Lemma wp_raise {A} e (Q : outcome A → list Event → Prop) :
  Q (Raise e) [] → wp (raise e) Q.
Proof. intros HQ. by exists (Raise e), []. Qed.

Lemma wp_out_of_fuel {A} (Q : outcome A → list Event → Prop) :
  Q OutOfFuel [] → wp out_of_fuel Q.
Proof. intros HQ. by exists OutOfFuel, []. Qed.

Lemma wp_emit e Q : Q (Return tt) [e] → wp (emit e) Q.
Proof. intros HQ. by exists (Return tt), [e]. Qed.

Lemma wp_bind {A B} (m : M A) (k : A → M B) Q :
  wp m (λ o1 t1,
    match o1 with
    | Return a => wp (k a) (λ o t2, Q o (t1 ++ t2))
    | Raise e => Q (Raise e) t1
    | OutOfFuel => Q OutOfFuel t1
    end) →
  wp (m ≫= k) Q.
Proof.
  intros (o1 & t1 & Hm & H). destruct o1 as [a|e|].
  - destruct H as (o & t2 & Hk & HQ). exists o, (t1 ++ t2). split; [|done].
    intros w. unfold mbind, M_bind. by rewrite Hm, Hk, play_app.
  - exists (Raise e), t1. split; [|done].
    intros w. unfold mbind, M_bind. by rewrite Hm.
  - exists OutOfFuel, t1. split; [|done].
    intros w. unfold mbind, M_bind. by rewrite Hm.
Qed.

Lemma wp_try_except {A} (m : M A) (h : exn → M A) Q :
  wp m (λ o1 t1,
    match o1 with
    | Raise e => wp (h e) (λ o t2, Q o (t1 ++ t2))
    | _ => Q o1 t1
    end) →
  wp (try_except m h) Q.
Proof.
  intros (o1 & t1 & Hm & H). destruct o1 as [a|e|].
  - exists (Return a), t1. split; [|done].
    intros w. unfold try_except. by rewrite Hm.
  - destruct H as (o & t2 & Hk & HQ). exists o, (t1 ++ t2). split; [|done].
    intros w. unfold try_except. by rewrite Hm, Hk, play_app.
  - exists OutOfFuel, t1. split; [|done].
    intros w. unfold try_except. by rewrite Hm.
Qed.

(** One step of symbolic execution of a computation under [wp]. *)
Ltac wp_step :=
  lazymatch goal with
  | |- wp (mret _) _ => apply wp_ret
  | |- wp (raise _) _ => apply wp_raise
  | |- wp out_of_fuel _ => apply wp_out_of_fuel
  | |- wp (emit _) _ => apply wp_emit
  | |- wp (_ ≫= _) _ => apply wp_bind
  | |- wp (try_except _ _) _ => apply wp_try_except
  | |- wp (if ?b then _ else _) _ => destruct b eqn:?
  | |- wp (match ?x with _ => _ end) _ => destruct x eqn:?
  end.

(** Unfolds the primitive operations of the program. *)
Ltac unfold_prims :=
  unfold requests_get, response_json, base64_b64decode, bytes_decode,
    os_makedirs, open_file, f_write, time_sleep_uniform.

Ltac wp_run := simpl; repeat (wp_step; simpl).

(** ** [download_file] *)

Section DownloadFile.
Variable b64decode : string → option bytes.
Variable env : Env.

(** A download ends normally; its trace is one or two requests,
    followed, exactly when it answers [True], by the opening and the
    writing of the output file. *)
Lemma download_file_shape u r fp fn od c auth :
  wp (download_file b64decode env u r fp fn od c auth)
     (λ o t,
        (o = Return false ∧ Forall is_get t) ∨
        (∃ gets m data,
            o = Return true ∧ Forall is_get gets ∧
            t = gets ++ [Open (os_path_join od fn) m;
                         Write (os_path_join od fn) data])).
Proof.
  unfold download_file. unfold_prims. wp_run.
  all: try (left; split; [reflexivity | repeat constructor]).
  all: right.
  all: first
    [ by eexists [_], _, _; split; [|split; [|reflexivity]];
         [|repeat constructor]
    | by eexists [_; _], _, _; split; [|split; [|reflexivity]];
         [|repeat constructor] ].
Qed.
End DownloadFile.

Lemma wp_runs {A} (m : M A) o t : wp m (λ o' t', o' = o ∧ t' = t) → runs m o t.
Proof. by intros (o' & t' & Hr & -> & ->). Qed.

(** Turns the boolean tests met during symbolic execution into
    propositions and closes the cases the hypotheses exclude. *)
Ltac settle :=
  repeat match goal with
         | H : bool_decide _ = true |- _ => apply bool_decide_eq_true in H
         | H : bool_decide _ = false |- _ => apply bool_decide_eq_false in H
         end;
  simplify_eq; try done; try congruence.

Section Channels.
Variable b64decode : string → option bytes.
Variable env : Env.

(** The API request raises: the download answers [False] at once. *)
Lemma download_file_api_raises u r fp fn od c auth :
  remote env (contents_url u r fp c) auth = None →
  runs (download_file b64decode env u r fp fn od c auth)
       (Return false) [Get (contents_url u r fp c) auth 15].
Proof.
  intros Hapi. apply wp_runs. unfold download_file. unfold_prims.
  wp_run; settle.
Qed.

(** The primary channel yields [b] and the file can be opened. *)
Lemma download_file_primary u r fp fn od c auth b :
  primary_yields b64decode env u r fp c auth b →
  open_refused env (os_path_join od fn) = false →
  runs (download_file b64decode env u r fp fn od c auth)
       (Return true)
       [Get (contents_url u r fp c) auth 15;
        Open (os_path_join od fn) (mode_for (classify b));
        Write (os_path_join od fn)
          (match decode_utf8 b with
           | Some s => TextFile s
           | None => BinaryFile b
           end)].
Proof.
  intros (resp & d & s & Hapi & Hst & Hj & Hty & Hco & Hen & Hb) Hopen.
  apply wp_runs. unfold download_file, classify. unfold_prims.
  wp_run; settle.
  all: by repeat match goal with H : decode_utf8 _ = _ |- _ => rewrite H; clear H end.
Qed.


(** The fallback channel yields [raw] and the file can be opened. *)
Lemma download_file_fallback u r fp fn od c auth raw :
  fallback_yields env u r fp c auth raw →
  open_refused env (os_path_join od fn) = false →
  runs (download_file b64decode env u r fp fn od c auth)
       (Return true)
       [Get (contents_url u r fp c) auth 15;
        Get (raw_content_url u r c fp) auth 15;
        Open (os_path_join od fn) (mode_for (classify (content raw)));
        Write (os_path_join od fn)
          (match classify (content raw) with
           | Text => TextFile (text raw)
           | Binary => BinaryFile (content raw)
           end)].
Proof.
  intros [(resp & Hapi & Hst) [Hraw Hrst]] Hopen.
  apply wp_runs. unfold download_file, classify. unfold_prims.
  wp_run; settle.
  all: by repeat match goal with H : decode_utf8 _ = _ |- _ => rewrite H; clear H end.
Qed.

(** The API answers 200 with a payload that does not qualify: nothing
    is raised and the raw endpoint is requested next. *)
Lemma download_file_mismatch u r fp fn od c auth resp j :
  remote env (contents_url u r fp c) auth = Some resp →
  status_code resp = 200 →
  json resp = Some j →
  payload_mismatch j →
  wp (download_file b64decode env u r fp fn od c auth)
     (λ o t, ∃ ok rest,
        o = Return ok
        ∧ t = Get (contents_url u r fp c) auth 15
              :: Get (raw_content_url u r c fp) auth 15 :: rest
        ∧ (ok = true ↔
           ∃ raw, remote env (raw_content_url u r c fp) auth = Some raw
                  ∧ status_code raw = 200
                  ∧ open_refused env (os_path_join od fn) = false)).
Proof.
  intros Hapi Hst Hj Hmis.
  unfold download_file. unfold_prims.
  wp_run; settle.
  all: try (destruct Hmis as [?|[?|?]]; settle).
  all: eexists _, _; split; [reflexivity|]; split; [reflexivity|].
  all: split; [try done|].
  all: try (intros _; eexists; split; [reflexivity|]; split; settle).
  all: try (intros (raw' & ? & ? & ?); settle).
Qed.
End Channels.

(** ** Loops *)

(** The rule of the [for] loop: [I] relates the accumulator to the trace
    so far; [X] is what holds of the loop when it ends, normally or not. *)
Lemma wp_for_each {A S} (body : A → S → M S)
    (I : S → list Event → Prop) (X : outcome S → list Event → Prop) items :
  (∀ item acc t, item ∈ items → I acc t →
     wp (body item acc) (λ o t',
       match o with
       | Return acc' => I acc' (t ++ t')
       | _ => X o (t ++ t')
       end)) →
  (∀ acc t, I acc t → X (Return acc) t) →
  ∀ acc t, I acc t →
  wp (for_each items acc body) (λ o t', X o (t ++ t')).
Proof.
  intros Hbody Hend. induction items as [|item rest IH]; intros acc t HI.
  - simpl. apply wp_ret. rewrite app_nil_r. auto.
  - simpl. apply wp_bind.
    eapply wp_mono; [apply (Hbody item acc t); [left|done]|].
    intros [acc'| |] t' H; simpl in H.
    + eapply wp_mono.
      * apply IH; [|exact H].
        intros item' acc0 t0 Hin. apply Hbody. by right.
      * intros o t2 HX. simpl in HX. by rewrite app_assoc.
    + done.
    + done.
Qed.

(** ** Paced traces *)

Lemma Paced_app t1 t2 : Paced t1 → Paced t2 → Paced (t1 ++ t2).
Proof. induction 1; intros; simpl; try constructor; auto. Qed.

Lemma Paced_gets t : Forall is_get t → Paced t.
Proof.
  induction 1 as [|e t He _ IH]; [constructor|].
  destruct e; try done. by constructor.
Qed.

Lemma Paced_delays t : Paced t → delays t = persisted t.
Proof.
  unfold delays, persisted.
  induction 1; simpl; rewrite ?filter_cons; simpl; auto.
Qed.

Lemma persisted_app t1 t2 : persisted (t1 ++ t2) = (persisted t1 + persisted t2)%nat.
Proof. unfold persisted. by rewrite filter_app, length_app. Qed.

Lemma persisted_cons e t :
  persisted (e :: t) = ((if is_write e then 1 else 0) + persisted t)%nat.
Proof. unfold persisted. rewrite filter_cons. by destruct (is_write e). Qed.

Lemma persisted_gets t : Forall is_get t → persisted t = 0%nat.
Proof.
  unfold persisted. induction 1 as [|e t He _ IH]; [done|].
  destruct e; done.
Qed.

(** ** [list_directory_contents] *)

Section Walk.
Variable b64decode : string → option bytes.
Variable env : Env.

Lemma list_directory_contents_runs u r p c auth :
  runs (list_directory_contents env u r p c auth)
       (Return (listing env u r p c auth))
       [Get (contents_url u r p c) auth 15].
Proof.
  intros w. unfold list_directory_contents, listing, try_except, requests_get,
    response_json, mbind, M_bind, mret, M_ret, emit, raise. simpl.
  destruct (remote env _ auth) as [resp|]; [|done].
  destruct (bool_decide _); [|done].
  by destruct (json resp).
Qed.

Lemma wp_list_directory_contents u r p c auth Q :
  Q (Return (listing env u r p c auth)) [Get (contents_url u r p c) auth 15] →
  wp (list_directory_contents env u r p c auth) Q.
Proof. intros HQ. eexists _, _. split; [apply list_directory_contents_runs|done]. Qed.

Lemma process_entry_tallies recurse u r p out c auth item acc :
  (∀ sub, wp (recurse sub) (tallies 0)) →
  wp (process_entry b64decode env recurse u r p out c auth item acc)
     (tallies acc).
Proof.
  intros Hrec. unfold process_entry, tallies. unfold_prims.
  destruct item as [item|key].
  2:{ wp_run. split; [constructor|done]. }
  destruct (startswith _ _).
  { apply wp_ret; split; [constructor|]. intros n [= <-]. unfold persisted; simpl; lia. }
  destruct (bool_decide (item_type item = "file")).
  - wp_step. destruct (makedirs_refused env _); wp_run; [split; [constructor|done]|].
    eapply wp_mono; [apply download_file_shape|].
    intros o t [[-> Hg]|(gets & m & data & -> & Hg & ->)].
    + wp_run. rewrite app_nil_r. split.
      * constructor. by apply Paced_gets.
      * intros n [= <-]. rewrite persisted_cons, (persisted_gets t Hg).
        simpl. lia.
    + wp_run. rewrite <- !app_assoc. simpl. split.
      * constructor. apply Paced_app; [by apply Paced_gets|].
        repeat constructor.
      * intros n [= <-].
        rewrite persisted_cons, persisted_app, (persisted_gets gets Hg).
        rewrite !persisted_cons. simpl. unfold persisted; simpl. lia.
  - destruct (bool_decide (item_type item = "dir")).
    + wp_step. eapply wp_mono; [apply Hrec|].
      intros [n| |] t [HP Hn]; simpl; [|done..].
      wp_run. rewrite app_nil_r. split; [done|].
      intros n' [= <-]. by rewrite (Hn n eq_refl).
    + apply wp_ret. split; [constructor|]. intros n [= <-]. unfold persisted; simpl; lia.
Qed.

(** The walk, at every depth and whatever its outcome: the trace is
    paced and a returned tally counts the files persisted. *)
Lemma process_directory_tallies fuel u r p out c auth :
  wp (process_directory b64decode env fuel u r p out c auth) (tallies 0).
Proof.
  revert p. induction fuel as [|fuel IH]; intros p; simpl.
  { apply wp_out_of_fuel. split; [constructor|done]. }
  apply wp_bind, wp_list_directory_contents.
  destruct (listing env u r p c auth) as [contents [|]]; simpl.
  2:{ apply wp_ret. split; [repeat constructor|]. by intros n [= <-]. }
  apply wp_bind.
  assert (Hloop : ∀ items : list (Item + string),
    wp (for_each items 0%nat
          (process_entry b64decode env
             (λ sub, process_directory b64decode env fuel u r sub out c auth)
             u r p out c auth))
       (λ o t', tallies 0 o ([Get (contents_url u r p c) auth 15] ++ t'))).
  { intros items.
    apply (wp_for_each _ (λ acc t, Paced t ∧ acc = persisted t) (tallies 0)).
    - intros item acc t _ [HP ->].
      eapply wp_mono; [apply process_entry_tallies, IH|].
      intros o t' [HP' Hn]. destruct o as [n| |].
      + split; [by apply Paced_app|]. by rewrite persisted_app, (Hn n eq_refl).
      + split; [by apply Paced_app|done].
      + split; [by apply Paced_app|done].
    - intros acc t [HP ->]. split; [done|]. by intros n [= <-].
    - split; [repeat constructor|done]. }
  destruct contents; simpl; try (apply wp_ret; simpl; apply Hloop).
  apply wp_raise. split; [repeat constructor|done].
Qed.

(** On a tree of directories, with a disk that accepts directory
    creation, the walk returns. *)
Lemma process_directory_returns fuel u r p out c auth :
  creates_directories env →
  presents_tree env fuel u r p c auth = true →
  wp (process_directory b64decode env fuel u r p out c auth)
     (λ o _, ∃ n, o = Return n).
Proof.
  intros Hmk. revert p. induction fuel as [|fuel IH]; intros p Htree; [done|].
  simpl in *. apply wp_bind, wp_list_directory_contents.
  destruct (listing env u r p c auth) as [contents [|]]; simpl.
  2:{ apply wp_ret. eauto. }
  destruct contents as [items| | |]; try done. simpl.
  apply wp_bind, wp_ret. simpl.
  apply (wp_for_each _ (λ _ _, True) (λ o _, ∃ n, o = Return n)) with (t := []);
    [|eauto|done].
  intros [item|key] acc t Hin _; [|by apply list_elem_of_fmap in Hin as (? & ? & ?)].
  apply list_elem_of_fmap in Hin as (item' & [= <-] & Hin).
  rewrite forallb_forall in Htree. apply list_elem_of_In, Htree in Hin.
  unfold process_entry, hidden in *. unfold_prims.
  destruct (startswith _ _); [by apply wp_ret|].
  destruct (bool_decide (item_type item = "file")).
  - rewrite Hmk. wp_run.
    eapply wp_mono; [apply download_file_shape|].
    intros o t' [[-> _]|(? & ? & ? & -> & _)]; by wp_run.
  - destruct (bool_decide (item_type item = "dir")); [|by apply wp_ret].
    simpl in Hin. wp_step. eapply wp_mono; [by apply IH|].
    intros o t' [n ->]. by wp_run.
Qed.
End Walk.

Lemma wp_and {A} (m : M A) Q1 Q2 :
  wp m Q1 → wp m Q2 → wp m (λ o t, Q1 o t ∧ Q2 o t).
Proof.
  intros (o1 & t1 & Hr1 & H1) (o2 & t2 & Hr2 & H2).
  destruct (runs_det m o1 t1 o2 t2 Hr1 Hr2) as [<- <-].
  exists o1, t1. auto.
Qed.

(** ** Entries without effect *)

Lemma for_each_ext {A S} (body body' : A → S → M S) items :
  (∀ item acc w, body item acc w = body' item acc w) →
  ∀ acc w, for_each items acc body w = for_each items acc body' w.
Proof.
  intros Hext. induction items as [|item rest IH]; intros acc w; [done|].
  simpl. unfold mbind, M_bind. rewrite Hext.
  destruct (body' item acc w) as [[acc'| |] w']; auto.
Qed.

Lemma for_each_filter {A S} (keep : A → bool) (body : A → S → M S) items :
  (∀ item acc w, keep item = false → body item acc w = (Return acc, w)) →
  ∀ acc w, for_each (List.filter keep items) acc body w = for_each items acc body w.
Proof.
  intros Hskip. induction items as [|item rest IH]; intros acc w; [done|].
  simpl. destruct (keep item) eqn:Hk; simpl; unfold mbind, M_bind.
  - destruct (body item acc w) as [[acc'| |] w']; auto.
  - by rewrite (Hskip _ _ _ Hk).
Qed.

Lemma for_each_fmap {A B S} (f : A → B) (body : B → S → M S) items :
  ∀ acc w, for_each (f <$> items) acc body w
           = for_each items acc (λ item, body (f item)) w.
Proof.
  induction items as [|item rest IH]; intros acc w; [done|].
  simpl. unfold mbind, M_bind.
  destruct (body (f item) acc w) as [[acc'| |] w']; auto.
Qed.

Section Erasure.
Variable b64decode : string → option bytes.
Variable env : Env.
Variable keep : Item → bool.

(** An entry is without effect when it is hidden or of a type that is
    neither file nor directory. *)
Hypothesis keep_acted_on :
  ∀ item, keep item = false → hidden item = true ∨ file_or_dir item = false.

Lemma download_file_erase u r fp fn od c auth w :
  download_file b64decode (erase keep env) u r fp fn od c auth w
  = download_file b64decode env u r fp fn od c auth w.
Proof.
  unfold download_file, try_except, mbind, M_bind, mret, M_ret. unfold_prims.
  unfold mbind, M_bind, mret, M_ret, emit, raise. simpl.
  destruct (remote env (contents_url u r fp c) auth) as [resp|]; simpl; [|done].
  destruct (bool_decide (status_code resp = 200)); simpl.
  - destruct (json resp) as [[items| | |]|]; simpl.
    all: destruct (remote env (raw_content_url u r c fp) auth) as [raw|]; simpl; done.
  - destruct (remote env (raw_content_url u r c fp) auth) as [raw|]; simpl; done.
Qed.

Lemma list_directory_contents_erase u r p c auth w :
  list_directory_contents (erase keep env) u r p c auth w
  = (Return (erase_json keep (listing env u r p c auth).1,
             (listing env u r p c auth).2),
     apply_event (Get (contents_url u r p c) auth 15) w).
Proof.
  rewrite list_directory_contents_runs. unfold listing. simpl.
  destruct (remote env _ auth) as [resp|]; simpl; [|done].
  destruct (bool_decide _); [|done].
  by destruct (json resp).
Qed.

Lemma process_entry_erase rec rec' u r p out c auth item acc w :
  (∀ sub w, rec sub w = rec' sub w) →
  process_entry b64decode (erase keep env) rec u r p out c auth item acc w
  = process_entry b64decode env rec' u r p out c auth item acc w.
Proof.
  intros Hrec. unfold process_entry. destruct item as [item|key]; [|done].
  destruct (startswith _ _); [done|].
  destruct (bool_decide (item_type item = "file")).
  - unfold mbind, M_bind, os_makedirs. simpl.
    destruct (makedirs_refused env _); [done|]. simpl.
    by rewrite download_file_erase.
  - destruct (bool_decide (item_type item = "dir")); [|done].
    unfold mbind, M_bind. by rewrite Hrec.
Qed.

Lemma process_entry_skip rec u r p out c auth item acc w :
  keep item = false →
  process_entry b64decode env rec u r p out c auth (inl item) acc w = (Return acc, w).
Proof.
  intros Hk. unfold process_entry.
  destruct (keep_acted_on item Hk) as [Hh|Hfd].
  - unfold hidden in Hh. by rewrite Hh.
  - unfold file_or_dir in Hfd. apply orb_false_iff in Hfd as [-> ->].
    by destruct (startswith _ _).
Qed.

(** Removing such entries from every listing changes nothing of the
    walk: neither its outcome nor any of its effects. *)
Lemma process_directory_erase fuel u r p out c auth w :
  process_directory b64decode (erase keep env) fuel u r p out c auth w
  = process_directory b64decode env fuel u r p out c auth w.
Proof.
  revert p w. induction fuel as [|fuel IH]; intros p w; [done|].
  simpl. unfold mbind at 1 3, M_bind at 1 3.
  rewrite list_directory_contents_erase, list_directory_contents_runs.
  simpl. destruct (listing env u r p c auth) as [contents [|]]; simpl; [|done].
  destruct contents as [items| | |]; simpl.
  - unfold mbind, M_bind, mret, M_ret.
    rewrite (for_each_ext _ _ _ (λ item acc w,
               process_entry_erase _ _ u r p out c auth item acc w
                 (λ sub w, IH sub w))).
    rewrite !for_each_fmap. apply for_each_filter.
    intros. by apply process_entry_skip.
  - unfold mbind, M_bind, mret, M_ret.
    apply for_each_ext. intros. by apply process_entry_erase.
  - unfold mbind, M_bind, mret, M_ret.
    apply for_each_ext. intros. by apply process_entry_erase.
  - done.
Qed.
End Erasure.

(** ** The tally as a sum over the entries *)

Section Sum.
Variable b64decode : string → option bytes.
Variable env : Env.

(** An entry acts the same whatever the tally it starts from, and adds
    to it what it would add to 0. *)
Lemma process_entry_acc rec u r p out c auth item acc w :
  process_entry b64decode env rec u r p out c auth item acc w
  = let '(o, w') := process_entry b64decode env rec u r p out c auth item 0%nat w in
    (shift acc o, w').
Proof.
  unfold process_entry. destruct item as [item|key]; [|done].
  destruct (startswith _ _); [by simpl; rewrite Nat.add_0_r|].
  destruct (bool_decide (item_type item = "file")).
  - unfold mbind, M_bind, os_makedirs, time_sleep_uniform, emit, raise. simpl.
    destruct (makedirs_refused env _); [done|]. simpl.
    destruct (download_file _ _ _ _ _ _ _ _ _ _) as [[[|]| |] w']; simpl; try done.
    by rewrite Nat.add_0_r.
  - destruct (bool_decide (item_type item = "dir")); [|by simpl; rewrite Nat.add_0_r].
    unfold mbind, M_bind. by destruct (rec _ w) as [[n| |] w'].
Qed.

Lemma process_entry_hidden rec u r p out c auth item acc w :
  hidden item = true →
  process_entry b64decode env rec u r p out c auth (inl item) acc w = (Return acc, w).
Proof. unfold process_entry, hidden. by intros ->. Qed.

Lemma process_entry_other rec u r p out c auth item acc w :
  item_type item ≠ "file" → item_type item ≠ "dir" →
  process_entry b64decode env rec u r p out c auth (inl item) acc w = (Return acc, w).
Proof.
  intros Hf Hd. unfold process_entry.
  rewrite (bool_decide_eq_false_2 _ Hf), (bool_decide_eq_false_2 _ Hd).
  by destruct (startswith _ _).
Qed.

(** An entry returns when the disk accepts the creation of the output
    directory and, for a directory, when its own walk returns. *)
Lemma process_entry_returns rec u r p out c auth item acc :
  creates_directories env →
  (hidden item = false → item_type item ≠ "file" → item_type item = "dir" →
   wp (rec (item_path item)) (λ o _, ∃ n, o = Return n)) →
  wp (process_entry b64decode env rec u r p out c auth (inl item) acc)
     (λ o _, ∃ n, o = Return n).
Proof.
  intros Hmk Hrec. unfold process_entry, hidden in *. unfold_prims.
  destruct (startswith _ _); [by apply wp_ret; eauto|].
  destruct (bool_decide (item_type item = "file")) eqn:Hf.
  - rewrite Hmk. wp_run.
    eapply wp_mono; [apply download_file_shape|].
    intros o t' [[-> _]|(? & ? & ? & -> & _)]; wp_run; eauto.
  - apply bool_decide_eq_false in Hf.
    destruct (bool_decide (item_type item = "dir")) eqn:Hd; [|by apply wp_ret; eauto].
    apply bool_decide_eq_true in Hd.
    wp_step. eapply wp_mono; [by apply Hrec|].
    intros o t' [n ->]. wp_run. eauto.
Qed.

(** A file entry: the directory is created, the file is downloaded,
    and exactly when the download answers [True] the tally grows by one
    and one delay follows. *)
Lemma process_entry_file rec u r p out c auth item acc :
  creates_directories env →
  hidden item = false →
  item_type item = "file" →
  ∃ (ok : bool) t,
    runs (download_file b64decode env u r (item_path item) (item_name item)
            (os_path_join out p) c auth) (Return ok) t
    ∧ runs (process_entry b64decode env rec u r p out c auth (inl item) acc)
        (Return (if ok then acc + 1 else acc)%nat)
        (Makedirs (os_path_join out p) :: t
         ++ (if ok then [Sleep 0.1 0.5] else [])).
Proof.
  intros Hmk Hh Hf.
  destruct (download_file_shape b64decode env u r (item_path item) (item_name item)
              (os_path_join out p) c auth) as (o & t & Hrun & Hshape).
  assert (∃ ok : bool, o = Return ok) as [ok ->].
  { destruct Hshape as [[-> _]|(? & ? & ? & -> & _)]; eauto. }
  exists ok, t. split; [exact Hrun|].
  intros w. unfold process_entry, hidden in *.
  rewrite Hh, (bool_decide_eq_true_2 _ Hf).
  unfold mbind, M_bind, os_makedirs, time_sleep_uniform, emit.
  rewrite Hmk. simpl. rewrite Hrun.
  destruct ok; simpl.
  - by rewrite play_app.
  - by rewrite app_nil_r.
Qed.

Lemma for_each_sum {A} (body : A → nat → M nat) (tally : A → nat) items :
  (∀ item acc, item ∈ items →
     ∃ t, runs (body item acc) (Return (acc + tally item)%nat) t) →
  ∀ acc, ∃ t, runs (for_each items acc body)
                   (Return (acc + sum_list_with tally items)%nat) t.
Proof.
  induction items as [|item rest IH]; intros Hbody acc.
  - exists []. intros w. simpl. by rewrite Nat.add_0_r.
  - destruct (Hbody item acc) as [t1 H1]; [left|].
    destruct (IH (λ i a Hin, Hbody i a (list_elem_of_further _ _ _ Hin))
                 (acc + tally item)%nat) as [t2 H2].
    exists (t1 ++ t2). intros w. simpl. unfold mbind, M_bind.
    by rewrite H1, H2, play_app, Nat.add_assoc.
Qed.

Lemma sum_list_with_visible (tally : Item → nat) items :
  (∀ item, hidden item = true → tally item = 0%nat) →
  sum_list_with tally (List.filter visible items) = sum_list_with tally items.
Proof.
  intros Hz. induction items as [|item rest IH]; [done|].
  simpl. unfold visible at 1. destruct (hidden item) eqn:Hh; simpl.
  - by rewrite IH, (Hz item Hh).
  - by rewrite IH.
Qed.

Lemma entry_tally_runs fuel u r p out c auth item n t :
  runs (process_entry b64decode env
          (λ sub, process_directory b64decode env fuel u r sub out c auth)
          u r p out c auth (inl item) 0%nat) (Return n) t →
  entry_tally b64decode env fuel u r p out c auth item = n.
Proof. intros Hr. unfold entry_tally. by rewrite (Hr fresh). Qed.

Lemma entry_tally_hidden fuel u r p out c auth item :
  hidden item = true →
  entry_tally b64decode env fuel u r p out c auth item = 0%nat.
Proof. intros Hh. unfold entry_tally. by rewrite process_entry_hidden. Qed.

Lemma listing_fails u r p c auth :
  fails_to_list env u r p c auth → listing env u r p c auth = (JArray [], false).
Proof.
  unfold fails_to_list, listing. destruct (remote env _ auth) as [resp|]; [|done].
  intros Hne. by rewrite (bool_decide_eq_false_2 _ Hne).
Qed.

(** A directory whose listing fails: one request, no retry, tally 0. *)
Lemma process_directory_fails fuel u r p out c auth :
  fails_to_list env u r p c auth →
  runs (process_directory b64decode env (S fuel) u r p out c auth)
       (Return 0%nat) [Get (contents_url u r p c) auth 15].
Proof.
  intros Hf w. simpl. unfold mbind, M_bind.
  by rewrite list_directory_contents_runs, (listing_fails _ _ _ _ _ Hf).
Qed.
End Sum.

(** ** The disk after a trace *)

Lemma files_apply_event e w :
  files (apply_event e w) = files (apply_event e fresh) ∪ files w.
Proof.
  destruct e; simpl; rewrite ?(left_id_L ∅ (∪)); try done.
  - by rewrite insert_empty, insert_union_singleton_l.
  - by rewrite insert_empty, insert_union_singleton_l.
Qed.

(** What a trace leaves on the disk lies over what was there before:
    a path it wrote holds what it wrote last, any other path is
    untouched. *)
Lemma files_play t w : files (play t w) = files (play t fresh) ∪ files w.
Proof.
  revert w. induction t as [|e t IH]; intros w.
  - simpl. by rewrite (left_id_L ∅ (∪)).
  - rewrite !play_cons, IH, (IH (apply_event e fresh)), files_apply_event.
    by rewrite (assoc_L (∪)).
Qed.

Lemma dirs_apply_event e w :
  dirs (apply_event e w) = dirs (apply_event e fresh) ∪ dirs w.
Proof.
  destruct e; simpl; rewrite ?(left_id_L ∅ (∪)); try done.
  by rewrite (right_id_L ∅ (∪)).
Qed.

Lemma dirs_play t w : dirs (play t w) = dirs (play t fresh) ∪ dirs w.
Proof.
  revert w. induction t as [|e t IH]; intros w.
  - simpl. by rewrite (left_id_L ∅ (∪)).
  - rewrite !play_cons, IH, (IH (apply_event e fresh)), dirs_apply_event.
    by rewrite (assoc_L (∪)).
Qed.

Lemma files_play_twice t w : files (play t (play t w)) = files (play t w).
Proof.
  rewrite (files_play t (play t w)), (files_play t w).
  by rewrite (assoc_L (∪)), (idemp_L (∪)).
Qed.

Lemma dirs_play_twice t w : dirs (play t (play t w)) = dirs (play t w).
Proof.
  rewrite (dirs_play t (play t w)), (dirs_play t w).
  by rewrite (assoc_L (∪)), (idemp_L (∪)).
Qed.

Lemma files_play_snoc_write t p data w :
  files (play (t ++ [Write p data]) w) !! p = Some data.
Proof. rewrite play_app. simpl. apply lookup_insert_eq. Qed.

(** ** The directory component of the path of an entry *)

Lemma list_ascii_of_string_app s1 s2 :
  list_ascii_of_string (s1 +:+ s2) = list_ascii_of_string s1 ++ list_ascii_of_string s2.
Proof. induction s1 as [|a s1 IH]; simpl; [done|]. by rewrite IH. Qed.

Lemma from_first_slash_none l :
  forallb (λ a, negb (is_slash a)) l = true → from_first_slash l = [].
Proof.
  induction l as [|a l IH]; simpl; [done|].
  intros [Ha Hl]%andb_true_iff. destruct (is_slash a); [done|]. auto.
Qed.

Lemma from_first_slash_app l1 a l2 :
  forallb (λ a, negb (is_slash a)) l1 = true → is_slash a = true →
  from_first_slash (l1 ++ a :: l2) = a :: l2.
Proof.
  intros Hl1 Ha. induction l1 as [|b l1 IH]; simpl.
  - by rewrite Ha.
  - simpl in Hl1. apply andb_true_iff in Hl1 as [Hb Hl1].
    destruct (is_slash b); [done|]. auto.
Qed.

Lemma forallb_reverse {A} (f : A → bool) l : forallb f (reverse l) = forallb f l.
Proof.
  induction l as [|a l IH]; [done|].
  rewrite reverse_cons, forallb_app, IH. simpl. rewrite andb_true_r. apply andb_comm.
Qed.

Lemma endswith_char_false s c :
  s ≠ "" → endswith_char s c = false →
  ∃ l x, list_ascii_of_string s = l ++ [x] ∧ x ≠ c.
Proof.
  induction s as [|a s IH]; [done|]. intros _ He.
  destruct s as [|b s].
  - exists [], a. split; [done|]. simpl in He. by apply bool_decide_eq_false in He.
  - destruct IH as (l & x & Hl & Hx); [done|exact He|].
    exists (a :: l), x. split; [|done]. simpl in *. by rewrite Hl.
Qed.

(** The directory component of the path the remote gives to an entry
    of [path] is [path]. *)
Lemma posixpath_dirname_path_under path name :
  no_slash name = true →
  endswith_char path "/" = false →
  posixpath_dirname (path_under path name) = path.
Proof.
  intros Hn He. unfold path_under, posixpath_dirname, no_slash in *.
  case_bool_decide as Hp.
  - subst path. rewrite from_first_slash_none; [done|]. by rewrite forallb_reverse.
  - destruct (endswith_char_false path "/" Hp He) as (l & x & Hl & Hx).
    rewrite !list_ascii_of_string_app, Hl. simpl.
    rewrite reverse_app, reverse_cons, <- app_assoc. simpl.
    rewrite from_first_slash_app; [|by rewrite forallb_reverse|done].
    rewrite reverse_cons, reverse_involutive.
    assert (Hx' : is_slash x = false) by (by apply bool_decide_eq_false).
    rewrite !forallb_app. simpl. rewrite Hx'. rewrite andb_false_r. simpl.
    rewrite reverse_app. simpl. rewrite reverse_app. simpl. rewrite Hx'.
    rewrite reverse_cons, reverse_involutive, <- Hl.
    apply string_of_list_ascii_of_string.
Qed.

(** * The claims *)

(** C1.  On every tree of directories the walk returns the number of
    files it persisted: each file downloaded adds exactly one.  Entries
    whose name starts with a dot count for nothing at any level: the
    walk of the remote with every such entry removed from every listing
    is the same walk, with the same tally and the same effects. *)
Theorem walk_tally_counts_persisted_files b64decode env fuel u r p out c auth w :
  creates_directories env →
  presents_tree env fuel u r p c auth = true →
  (∃ n t,
     process_directory b64decode env fuel u r p out c auth w = (Return n, play t w)
     ∧ n = persisted t
     ∧ process_directory b64decode (erase visible env) fuel u r p out c auth w
       = (Return n, play t w))
  ∧ (∀ rec dir item acc w',
       hidden item = true →
       process_entry b64decode env rec u r dir out c auth (inl item) acc w'
       = (Return acc, w'))
  ∧ (∀ rec dir item acc,
       hidden item = false → item_type item = "file" →
       ∃ (ok : bool) t,
         runs (download_file b64decode env u r (item_path item) (item_name item)
                 (os_path_join out dir) c auth) (Return ok) t
         ∧ runs (process_entry b64decode env rec u r dir out c auth (inl item) acc)
             (Return (if ok then acc + 1 else acc)%nat)
             (Makedirs (os_path_join out dir) :: t
              ++ (if ok then [Sleep 0.1 0.5] else []))).
Proof.
  intros Hmk Htree. split; [|split].
  - destruct (wp_and _ _ _
                (process_directory_returns b64decode env fuel u r p out c auth Hmk Htree)
                (process_directory_tallies b64decode env fuel u r p out c auth))
      as (o & t & Hrun & [n ->] & _ & Hn).
    exists n, t. split; [apply Hrun|]. split; [by apply Hn|].
    rewrite process_directory_erase; [apply Hrun|].
    intros item Hk. left. unfold visible in Hk. by destruct (hidden item).
  - intros. by apply process_entry_hidden.
  - intros. by apply process_entry_file.
Qed.

Lemma walk_tally_counts_persisted_files_witness :
  creates_directories Sample.widgets
  ∧ presents_tree Sample.widgets 3 "acme" "widgets" "src" "abcdef1" Sample.auth = true
  ∧ ∃ n t,
      Sample.walk_widgets 3 fresh = (Return n, play t fresh)
      ∧ n = persisted t
      ∧ process_directory Sample.b64decode (erase visible Sample.widgets) 3
          "acme" "widgets" "src" "out" "abcdef1" Sample.auth fresh
        = (Return n, play t fresh).
Proof.
  split; [intros d; reflexivity|].
  split; [vm_compute; reflexivity|].
  apply (walk_tally_counts_persisted_files Sample.b64decode Sample.widgets 3
           "acme" "widgets" "src" "out" "abcdef1" Sample.auth fresh).
  - intros d; reflexivity.
  - vm_compute; reflexivity.
Defined.

Example walk_widgets_tally : (Sample.walk_widgets 3 fresh).1 = Return 2%nat.
Proof. vm_compute. reflexivity. Qed.

(** C7.  A directory whose listing fails (the request raises, or the
    status is not 200) is walked with one request and no retry, and
    yields 0.  Its siblings are not affected: the tally of the parent is
    the sum, over the entries that are not skipped, of what each yields
    on its own; a sub-directory whose listing fails yields 0 there. *)
Theorem listing_failure_is_isolated b64decode env fuel u r parent out c auth items w :
  creates_directories env →
  presents_tree env (S fuel) u r parent c auth = true →
  listing env u r parent c auth = (JArray items, true) →
  (∃ t, process_directory b64decode env (S fuel) u r parent out c auth w
        = (Return (sum_list_with (entry_tally b64decode env fuel u r parent out c auth)
                     (List.filter visible items)),
           play t w))
  ∧ ∀ item, item ∈ items → hidden item = false → item_type item = "dir" →
      fails_to_list env u r (item_path item) c auth →
      (∀ w', process_directory b64decode env fuel u r (item_path item) out c auth w'
             = (Return 0%nat, play [Get (contents_url u r (item_path item) c) auth 15] w'))
      ∧ entry_tally b64decode env fuel u r parent out c auth item = 0%nat.
Proof.
  intros Hmk Htree Hlist.
  assert (Hsub : ∀ item, item ∈ items → hidden item = false →
            item_type item ≠ "file" → item_type item = "dir" →
            presents_tree env fuel u r (item_path item) c auth = true).
  { intros item Hin Hh Hf Hd. simpl in Htree. rewrite Hlist in Htree.
    rewrite forallb_forall in Htree. apply list_elem_of_In, Htree in Hin.
    rewrite Hh, (bool_decide_eq_false_2 _ Hf), (bool_decide_eq_true_2 _ Hd) in Hin.
    done. }
  split.
  - destruct (for_each_sum
                (λ item, process_entry b64decode env
                   (λ sub, process_directory b64decode env fuel u r sub out c auth)
                   u r parent out c auth (inl item))
                (entry_tally b64decode env fuel u r parent out c auth) items)
      with (acc := 0%nat) as [t Ht].
    { intros item acc Hin.
      destruct (process_entry_returns b64decode env
                  (λ sub, process_directory b64decode env fuel u r sub out c auth)
                  u r parent out c auth item 0%nat Hmk) as (o & t & Hr & n & ->).
      { intros Hh Hf Hd. apply process_directory_returns; auto. }
      exists t. intros w0. rewrite process_entry_acc, Hr. simpl.
      by rewrite (entry_tally_runs _ _ _ _ _ _ _ _ _ _ _ _ Hr). }
    exists (Get (contents_url u r parent c) auth 15 :: t).
    simpl. unfold mbind at 1, M_bind at 1.
    rewrite list_directory_contents_runs, Hlist. simpl.
    unfold mbind, M_bind, mret, M_ret.
    rewrite for_each_fmap, Ht. simpl.
    rewrite sum_list_with_visible; [done|].
    intros item. apply entry_tally_hidden.
  - intros item Hin Hh Hd Hfail.
    assert (Hf : item_type item ≠ "file") by (rewrite Hd; done).
    pose proof (Hsub item Hin Hh Hf Hd) as Hfit.
    destruct fuel as [|fuel']; [done|].
    pose proof (process_directory_fails b64decode env fuel' u r (item_path item)
                  out c auth Hfail) as Hrun.
    split; [exact Hrun|].
    unfold entry_tally, process_entry. unfold hidden in Hh.
    rewrite Hh, (bool_decide_eq_false_2 _ Hf), (bool_decide_eq_true_2 _ Hd).
    unfold mbind, M_bind. by rewrite Hrun.
Qed.

Lemma listing_failure_is_isolated_witness :
  creates_directories Sample.widgets
  ∧ presents_tree Sample.widgets 3 "acme" "widgets" "src" "abcdef1" Sample.auth = true
  ∧ ∃ items,
      listing Sample.widgets "acme" "widgets" "src" "abcdef1" Sample.auth
      = (JArray items, true)
      ∧ (∃ t, Sample.walk_widgets 3 fresh
              = (Return (sum_list_with
                           (entry_tally Sample.b64decode Sample.widgets 2
                              "acme" "widgets" "src" "out" "abcdef1" Sample.auth)
                           (List.filter visible items)),
                 play t fresh))
      ∧ fails_to_list Sample.widgets "acme" "widgets" "src/bad" "abcdef1" Sample.auth
      ∧ entry_tally Sample.b64decode Sample.widgets 2
          "acme" "widgets" "src" "out" "abcdef1" Sample.auth
          (Sample.entry "bad" "src/bad" "dir") = 0%nat.
Proof.
  split; [intros d; reflexivity|].
  split; [vm_compute; reflexivity|].
  eexists. split; [vm_compute; reflexivity|].
  pose proof (listing_failure_is_isolated Sample.b64decode Sample.widgets 2
                "acme" "widgets" "src" "out" "abcdef1" Sample.auth _ fresh
                (λ d, eq_refl) eq_refl eq_refl) as [Hsum Hbad].
  split; [exact Hsum|].
  assert (Hf : fails_to_list Sample.widgets "acme" "widgets" "src/bad" "abcdef1"
                 Sample.auth) by (vm_compute; discriminate).
  split; [exact Hf|].
  apply (Hbad (Sample.entry "bad" "src/bad" "dir")).
  - repeat constructor.
  - reflexivity.
  - reflexivity.
  - exact Hf.
Defined.

(** C9.  Whatever the outcome of the walk, its trace is paced: each
    file written is followed at once by exactly one delay, drawn from
    0.1 to 0.5, and no delay occurs anywhere else, neither after a
    skipped entry, nor after a failed download, nor after a listing.
    There are as many delays as files persisted, which is the tally. *)
Theorem pacing_follows_each_download b64decode env fuel u r p out c auth :
  ∃ o t,
    (∀ w, process_directory b64decode env fuel u r p out c auth w = (o, play t w))
    ∧ Paced t
    ∧ delays t = persisted t
    ∧ ∀ n, o = Return n → delays t = n.
Proof.
  destruct (process_directory_tallies b64decode env fuel u r p out c auth)
    as (o & t & Hrun & HP & Hn).
  exists o, t. split; [exact Hrun|]. split; [exact HP|].
  split; [by apply Paced_delays|].
  intros n Ho. rewrite (Hn n Ho). by apply Paced_delays.
Qed.

(** C10.  An entry whose type is neither "file" nor "dir" is passed
    over: processing it leaves the tally and the world as they are, and
    the walk of the remote with every such entry removed from every
    listing is the same walk. *)
Theorem other_entry_types_are_ignored b64decode env rec u r p out c auth item acc w :
  item_type item ≠ "file" → item_type item ≠ "dir" →
  process_entry b64decode env rec u r p out c auth (inl item) acc w = (Return acc, w)
  ∧ ∀ fuel path w',
      process_directory b64decode (erase file_or_dir env) fuel u r path out c auth w'
      = process_directory b64decode env fuel u r path out c auth w'.
Proof.
  intros Hf Hd. split; [by apply process_entry_other|].
  intros fuel path w'. apply process_directory_erase. by right.
Qed.

Lemma other_entry_types_are_ignored_witness :
  "symlink" ≠ "file" ∧ "symlink" ≠ "dir"
  ∧ process_entry Sample.b64decode Sample.widgets
      (λ sub, Sample.walk_widgets 2) "acme" "widgets" "src" "out" "abcdef1"
      Sample.auth (inl (Sample.entry "link" "src/link" "symlink")) 1%nat fresh
    = (Return 1%nat, fresh)
  ∧ ∀ fuel path w',
      process_directory Sample.b64decode (erase file_or_dir Sample.widgets) fuel
        "acme" "widgets" path "out" "abcdef1" Sample.auth w'
      = process_directory Sample.b64decode Sample.widgets fuel
          "acme" "widgets" path "out" "abcdef1" Sample.auth w'.
Proof.
  split; [discriminate|]. split; [discriminate|].
  apply (other_entry_types_are_ignored Sample.b64decode Sample.widgets
           (λ sub, Sample.walk_widgets 2) "acme" "widgets" "src" "out" "abcdef1"
           Sample.auth (Sample.entry "link" "src/link" "symlink") 1%nat fresh);
    discriminate.
Defined.

(** C8.  A second walk of the same remote into the same output root
    has the outcome and the trace of the first and leaves the disk as
    the first left it.  What a walk writes lies over whatever the disk
    held: after a download that succeeds, the destination holds exactly
    the data written, whatever was there before. *)
Theorem second_walk_leaves_disk_unchanged b64decode env fuel u r p out c auth w :
  (∃ o t,
     let w1 := play t w in
     let w2 := play t w1 in
     process_directory b64decode env fuel u r p out c auth w = (o, w1)
     ∧ process_directory b64decode env fuel u r p out c auth w1 = (o, w2)
     ∧ files w2 = files w1 ∧ dirs w2 = dirs w1
     ∧ files w1 = files (play t fresh) ∪ files w)
  ∧ ∀ fp fn od,
      ∃ ok t,
        (∀ w', download_file b64decode env u r fp fn od c auth w' = (Return ok, play t w'))
        ∧ (ok = true →
           ∃ data, ∀ w', files (play t w') !! os_path_join od fn = Some data).
Proof.
  split.
  - destruct (process_directory_tallies b64decode env fuel u r p out c auth)
      as (o & t & Hrun & _).
    exists o, t. simpl. rewrite !Hrun.
    split; [done|]. split; [done|].
    split; [apply files_play_twice|]. split; [apply dirs_play_twice|].
    apply files_play.
  - intros fp fn od.
    destruct (download_file_shape b64decode env u r fp fn od c auth)
      as (o & t & Hrun & [[-> _]|(gets & m & data & -> & _ & ->)]).
    + exists false, t. split; [exact Hrun|done].
    + eexists true, _. split; [exact Hrun|].
      intros _. exists data. intros w'.
      change [Open (os_path_join od fn) m; Write (os_path_join od fn) data]
        with ([Open (os_path_join od fn) m] ++ [Write (os_path_join od fn) data]).
      rewrite app_assoc. apply files_play_snoc_write.
Qed.

(** C2.  The request to the contents API raises on [src/c.txt] while the
    raw endpoint would answer 200: the exception is caught, nothing is
    raised, but the download answers [False] after that single request.
    The raw endpoint is never asked. *)
Theorem api_transport_failure_skips_fallback :
  remote Sample.widgets (contents_url "acme" "widgets" "src/c.txt" "abcdef1")
    Sample.auth = None
  ∧ (∃ raw, remote Sample.widgets
              (raw_content_url "acme" "widgets" "abcdef1" "src/c.txt") Sample.auth
            = Some raw ∧ status_code raw = 200)
  ∧ ∀ w, download_file Sample.b64decode Sample.widgets "acme" "widgets"
           "src/c.txt" "c.txt" "out/src" "abcdef1" Sample.auth w
         = (Return false,
            play [Get (contents_url "acme" "widgets" "src/c.txt" "abcdef1")
                    Sample.auth 15] w).
Proof.
  split; [vm_compute; reflexivity|].
  split; [eexists; split; [vm_compute; reflexivity|reflexivity]|].
  apply download_file_api_raises. vm_compute. reflexivity.
Qed.

(** C3.  On the fallback channel a body that is valid UTF-8 is written
    in text mode as [raw_response.text], not as its UTF-8 decoding: the
    two bytes of U+00E9, served without a charset, are stored as the two
    characters U+00C3 U+00A9. *)
Theorem fallback_text_is_not_utf8_decoding :
  fallback_yields Sample.raw_only "acme" "widgets" "cafe.txt" "abcdef1"
    Sample.auth Sample.cafe_raw
  ∧ decode_utf8 (content Sample.cafe_raw) = Some [0xE9%N]
  ∧ ∀ w, download_file Sample.b64decode Sample.raw_only "acme" "widgets"
           "cafe.txt" "cafe.txt" "out" "abcdef1" Sample.auth w
         = (Return true,
            play [Get (contents_url "acme" "widgets" "cafe.txt" "abcdef1")
                    Sample.auth 15;
                  Get (raw_content_url "acme" "widgets" "abcdef1" "cafe.txt")
                    Sample.auth 15;
                  Open "out/cafe.txt" mode_w;
                  Write "out/cafe.txt" (TextFile [0xC3%N; 0xA9%N])] w).
Proof.
  assert (Hfb : fallback_yields Sample.raw_only "acme" "widgets" "cafe.txt"
                  "abcdef1" Sample.auth Sample.cafe_raw).
  { split; [|split; vm_compute; reflexivity].
    eexists. split; [vm_compute; reflexivity|]. simpl. discriminate. }
  split; [exact Hfb|]. split; [reflexivity|].
  apply (download_file_fallback Sample.b64decode Sample.raw_only "acme" "widgets"
           "cafe.txt" "cafe.txt" "out" "abcdef1" Sample.auth Sample.cafe_raw Hfb).
  reflexivity.
Qed.

(** C4.  When the contents API answers 200 with a payload that is not a
    file object, or has no content, or is not in base64, the download
    raises nothing and asks the raw endpoint next; it answers [True]
    exactly when that endpoint answers 200 and the file can be opened. *)
Theorem payload_mismatch_falls_back b64decode env u r fp fn od c auth resp j w :
  remote env (contents_url u r fp c) auth = Some resp →
  status_code resp = 200 →
  json resp = Some j →
  payload_mismatch j →
  ∃ ok rest,
    download_file b64decode env u r fp fn od c auth w
    = (Return ok,
       play (Get (contents_url u r fp c) auth 15
             :: Get (raw_content_url u r c fp) auth 15 :: rest) w)
    ∧ (ok = true ↔
       ∃ raw, remote env (raw_content_url u r c fp) auth = Some raw
              ∧ status_code raw = 200
              ∧ open_refused env (os_path_join od fn) = false).
Proof.
  intros Hapi Hst Hj Hmis.
  destruct (download_file_mismatch b64decode env u r fp fn od c auth resp j
              Hapi Hst Hj Hmis) as (o & t & Hrun & ok & rest & -> & -> & Hok).
  exists ok, rest. split; [apply Hrun|exact Hok].
Qed.

Lemma payload_mismatch_falls_back_witness :
  ∃ resp j,
    remote Sample.widgets (contents_url "acme" "widgets" "src/sub" "abcdef1")
      Sample.auth = Some resp
    ∧ status_code resp = 200
    ∧ json resp = Some j
    ∧ payload_mismatch j
    ∧ ∃ ok rest,
        download_file Sample.b64decode Sample.widgets "acme" "widgets"
          "src/sub" "sub" "out/src" "abcdef1" Sample.auth fresh
        = (Return ok,
           play (Get (contents_url "acme" "widgets" "src/sub" "abcdef1") Sample.auth 15
                 :: Get (raw_content_url "acme" "widgets" "abcdef1" "src/sub")
                      Sample.auth 15 :: rest) fresh)
        ∧ (ok = true ↔
           ∃ raw, remote Sample.widgets
                    (raw_content_url "acme" "widgets" "abcdef1" "src/sub") Sample.auth
                  = Some raw
                  ∧ status_code raw = 200
                  ∧ open_refused Sample.widgets (os_path_join "out/src" "sub") = false).
Proof.
  eexists _, _.
  split; [vm_compute; reflexivity|].
  split; [reflexivity|].
  split; [reflexivity|].
  split; [exact I|].
  eapply (payload_mismatch_falls_back Sample.b64decode Sample.widgets
            "acme" "widgets" "src/sub" "sub" "out/src" "abcdef1" Sample.auth _ _ fresh).
  - vm_compute; reflexivity.
  - reflexivity.
  - reflexivity.
  - exact I.
Defined.

(** C6.  The classification is a function of the bytes alone: Text
    exactly when they decode as UTF-8, that is when they are well formed
    by the table of the Unicode standard, and Binary exactly when they
    do not.  The same bytes, whether the primary channel or the fallback
    channel retrieved them, open the output file in the same mode, the
    mode of their classification, and classifying has no effect of its
    own. *)
Theorem classification_depends_on_bytes_only
    b64decode env u r fp fn od c auth env' u' r' fp' fn' od' c' auth' b raw :
  primary_yields b64decode env u r fp c auth b →
  open_refused env (os_path_join od fn) = false →
  fallback_yields env' u' r' fp' c' auth' raw →
  content raw = b →
  open_refused env' (os_path_join od' fn') = false →
  (classify b = Text ↔ is_Some (decode_utf8 b))
  ∧ (classify b = Binary ↔ decode_utf8 b = None)
  ∧ (classify b = Text ↔ well_formed_utf8 b = true)
  ∧ (∃ data,
       runs (download_file b64decode env u r fp fn od c auth) (Return true)
         [Get (contents_url u r fp c) auth 15;
          Open (os_path_join od fn) (mode_for (classify b));
          Write (os_path_join od fn) data])
  ∧ (∃ data',
       runs (download_file b64decode env' u' r' fp' fn' od' c' auth') (Return true)
         [Get (contents_url u' r' fp' c') auth' 15;
          Get (raw_content_url u' r' c' fp') auth' 15;
          Open (os_path_join od' fn') (mode_for (classify b));
          Write (os_path_join od' fn') data']).
Proof.
  intros Hp Ho Hf <- Ho'.
  assert (Htext : classify (content raw) = Text ↔ is_Some (decode_utf8 (content raw))).
  { unfold classify. destruct (decode_utf8 _) eqn:E.
    - split; [eauto|done].
    - split; [done|]. by intros [? ?]. }
  split; [exact Htext|]. split; [|split; [|split]].
  - unfold classify. by destruct (decode_utf8 _).
  - by rewrite Htext, decode_utf8_well_formed.
  - eexists. by apply download_file_primary.
  - eexists. by apply download_file_fallback.
Qed.

Lemma classification_depends_on_bytes_only_witness :
  primary_yields Sample.b64decode Sample.widgets "acme" "widgets" "src/a.txt"
    "abcdef1" Sample.auth [x68; x69]
  ∧ fallback_yields Sample.raw_only "acme" "widgets" "hi.txt" "abcdef1"
      Sample.auth Sample.hi_raw
  ∧ (classify [x68; x69] = Text ↔ is_Some (decode_utf8 [x68; x69]))
  ∧ (classify [x68; x69] = Binary ↔ decode_utf8 [x68; x69] = None)
  ∧ (classify [x68; x69] = Text ↔ well_formed_utf8 [x68; x69] = true)
  ∧ (∃ data,
       runs (download_file Sample.b64decode Sample.widgets "acme" "widgets"
               "src/a.txt" "a.txt" "out/src" "abcdef1" Sample.auth) (Return true)
         [Get (contents_url "acme" "widgets" "src/a.txt" "abcdef1") Sample.auth 15;
          Open (os_path_join "out/src" "a.txt") (mode_for (classify [x68; x69]));
          Write (os_path_join "out/src" "a.txt") data])
  ∧ (∃ data',
       runs (download_file Sample.b64decode Sample.raw_only "acme" "widgets"
               "hi.txt" "hi.txt" "out" "abcdef1" Sample.auth) (Return true)
         [Get (contents_url "acme" "widgets" "hi.txt" "abcdef1") Sample.auth 15;
          Get (raw_content_url "acme" "widgets" "abcdef1" "hi.txt") Sample.auth 15;
          Open (os_path_join "out" "hi.txt") (mode_for (classify [x68; x69]));
          Write (os_path_join "out" "hi.txt") data']).
Proof.
  assert (Hp : primary_yields Sample.b64decode Sample.widgets "acme" "widgets"
                 "src/a.txt" "abcdef1" Sample.auth [x68; x69]).
  { eexists _, _, _. split; [vm_compute; reflexivity|].
    split; [reflexivity|]. split; [reflexivity|].
    split; [vm_compute; reflexivity|].
    split; [vm_compute; reflexivity|].
    split; [vm_compute; reflexivity|]. reflexivity. }
  assert (Hf : fallback_yields Sample.raw_only "acme" "widgets" "hi.txt" "abcdef1"
                 Sample.auth Sample.hi_raw).
  { split; [|split; vm_compute; reflexivity].
    eexists. split; [vm_compute; reflexivity|]. simpl. discriminate. }
  split; [exact Hp|]. split; [exact Hf|].
  apply (classification_depends_on_bytes_only
           Sample.b64decode Sample.widgets "acme" "widgets" "src/a.txt" "a.txt"
           "out/src" "abcdef1" Sample.auth
           Sample.raw_only "acme" "widgets" "hi.txt" "hi.txt" "out" "abcdef1"
           Sample.auth [x68; x69] Sample.hi_raw Hp eq_refl Hf eq_refl eq_refl).
Defined.

Example dirname_nested : posixpath_dirname "src/sub/b.bin" = "src/sub".
Proof. reflexivity. Qed.
Example dirname_root_entry : posixpath_dirname "a.txt" = "".
Proof. reflexivity. Qed.
Example dirname_absolute : posixpath_dirname "/etc" = "/".
Proof. reflexivity. Qed.
Example dirname_doubled : posixpath_dirname "src//a.txt" = "src".
Proof. reflexivity. Qed.

Lemma gets_hold_no_open gets q m : Forall is_get gets → Open q m ∉ gets.
Proof. intros Hg Hin. rewrite Forall_forall in Hg. by apply Hg in Hin. Qed.

Lemma gets_hold_no_write gets q data : Forall is_get gets → Write q data ∉ gets.
Proof. intros Hg Hin. rewrite Forall_forall in Hg. by apply Hg in Hin. Qed.

(** C5, as amended.  A file entry met while walking the directory
    [p] is stored in the output root joined with [p], the path being
    listed: that directory is created first, creating it again changes
    nothing, and the file is opened and written at that directory
    joined with the entry's name, nowhere else.  The directory is the
    one the entry's own path names whenever that path is [p], a slash
    and the entry's name (the name alone at the root). *)
Theorem file_entry_is_stored_under_listed_path
    b64decode env rec u r p out c auth item acc w :
  hidden item = false →
  item_type item = "file" →
  makedirs_refused env (os_path_join out p) = false →
  let output_dir := os_path_join out p in
  let output_path := os_path_join output_dir (item_name item) in
  (∃ (ok : bool) rest,
     process_entry b64decode env rec u r p out c auth (inl item) acc w
     = (Return (if ok then acc + 1 else acc)%nat,
        play (Makedirs output_dir :: rest) w)
     ∧ (∀ q m, Open q m ∈ rest → q = output_path)
     ∧ (∀ q data, Write q data ∈ rest → q = output_path)
     ∧ (ok = true → ∃ m data, Open output_path m ∈ rest ∧ Write output_path data ∈ rest))
  ∧ dirs (play [Makedirs output_dir; Makedirs output_dir] w)
    = dirs (play [Makedirs output_dir] w)
  ∧ (no_slash (item_name item) = true →
     endswith_char p "/" = false →
     item_path item = path_under p (item_name item) →
     output_dir = os_path_join out (posixpath_dirname (item_path item))).
Proof.
  intros Hh Hf Hmk output_dir output_path. split; [|split].
  - unfold process_entry, hidden in *.
    rewrite Hh, (bool_decide_eq_true_2 _ Hf).
    unfold mbind, M_bind, os_makedirs, time_sleep_uniform, emit.
    rewrite Hmk. simpl.
    destruct (download_file_shape b64decode env u r (item_path item) (item_name item)
                (os_path_join out p) c auth)
      as (o & t & Hrun & [[-> Hg]|(gets & m & data & -> & Hg & ->)]);
      rewrite Hrun.
    + exists false, t. split; [done|]. split; [|split; [|done]].
      * intros q m Hin. by apply gets_hold_no_open in Hin.
      * intros q data Hin. by apply gets_hold_no_write in Hin.
    + exists true, (gets ++ [Open output_path m; Write output_path data; Sleep 0.1 0.5]).
      split.
      { f_equal. change (Makedirs output_dir :: ?l) with ([Makedirs output_dir] ++ l).
        rewrite !play_app. reflexivity. }
      split; [|split].
      * intros q m' [Hin|Hin]%elem_of_app; [by apply gets_hold_no_open in Hin|].
        apply elem_of_cons in Hin as [[= -> _]|Hin]; [done|].
        apply elem_of_cons in Hin as [[=]|Hin].
        by apply list_elem_of_singleton in Hin.
      * intros q d' [Hin|Hin]%elem_of_app; [by apply gets_hold_no_write in Hin|].
        apply elem_of_cons in Hin as [[=]|Hin].
        apply elem_of_cons in Hin as [[= -> _]|Hin]; [done|].
        by apply list_elem_of_singleton in Hin.
      * intros _. exists m, data. split; apply elem_of_app; right.
        -- left.
        -- right; left.
  - simpl. by rewrite (assoc_L (∪)), (idemp_L (∪)).
  - intros Hn He ->. by rewrite posixpath_dirname_path_under.
Qed.

Lemma file_entry_is_stored_under_listed_path_witness :
  let item := Sample.entry "b.bin" "src/sub/b.bin" "file" in
  hidden item = false
  ∧ item_type item = "file"
  ∧ makedirs_refused Sample.widgets (os_path_join "out" "src/sub") = false
  ∧ (∃ (ok : bool) rest,
       process_entry Sample.b64decode Sample.widgets (λ _, mret 0%nat)
         "acme" "widgets" "src/sub" "out" "abcdef1" Sample.auth (inl item) 0%nat fresh
       = (Return (if ok then 0 + 1 else 0)%nat,
          play (Makedirs "out/src/sub" :: rest) fresh)
       ∧ (∀ q m, Open q m ∈ rest → q = "out/src/sub/b.bin")
       ∧ (∀ q data, Write q data ∈ rest → q = "out/src/sub/b.bin")
       ∧ (ok = true →
          ∃ m data, Open "out/src/sub/b.bin" m ∈ rest
                    ∧ Write "out/src/sub/b.bin" data ∈ rest))
  ∧ "out/src/sub" = os_path_join "out" (posixpath_dirname "src/sub/b.bin").
Proof.
  intros item.
  pose proof (file_entry_is_stored_under_listed_path Sample.b64decode Sample.widgets
                (λ _, mret 0%nat) "acme" "widgets" "src/sub" "out" "abcdef1"
                Sample.auth item 0%nat fresh eq_refl eq_refl eq_refl)
    as (Hstore & _ & Hdir).
  split; [reflexivity|]. split; [reflexivity|]. split; [reflexivity|].
  split; [exact Hstore|].
  exact (Hdir eq_refl eq_refl eq_refl).
Defined.

(** C5, as stated, fails: the listing of [src] holds an entry whose own
    path is [lib/a.txt]; the walker stores it under [out/src], not
    under the directory component of its path, [out/lib]. *)
Lemma file_entry_not_stored_under_own_dirname :
  ¬ stored_under_own_dirname Sample.b64decode Sample.misfiled (λ _, mret 0%nat)
      "acme" "widgets" "src" "out" "abcdef1" Sample.auth
      (Sample.entry "a.txt" "lib/a.txt" "file").
Proof.
  intros H. destruct (H 0%nat fresh) as (o & rest & Heq & _).
  apply (f_equal (λ x, log x.2)) in Heq. simpl in Heq.
  rewrite log_play in Heq. vm_compute in Heq. discriminate Heq.
Qed.

Example misfiled_walk :
  (process_directory Sample.b64decode Sample.misfiled 2 "acme" "widgets" "src" "out"
     "abcdef1" Sample.auth fresh).1 = Return 1%nat
  ∧ files (process_directory Sample.b64decode Sample.misfiled 2 "acme" "widgets" "src"
             "out" "abcdef1" Sample.auth fresh).2 !! "out/src/a.txt"
    = Some (TextFile [0x68%N; 0x69%N]).
Proof. split; vm_compute; reflexivity. Qed.

(** * Beyond the claims *)

(** ** [parse_github_url] *)

Lemma string_app_assoc (s1 s2 s3 : string) :
  (s1 +:+ s2) +:+ s3 = s1 +:+ (s2 +:+ s3).
Proof.
  induction s1 as [|a s1 IH]; [done|].
  change (String a ((s1 +:+ s2) +:+ s3) = String a (s1 +:+ (s2 +:+ s3))).
  by rewrite IH.
Qed.

Lemma string_app_empty (s : string) : s +:+ "" = s.
Proof.
  induction s as [|a s IH]; [done|].
  change (String a (s +:+ "") = String a s). by rewrite IH.
Qed.

Lemma strip_prefix_app p s : strip_prefix p (p +:+ s) = Some s.
Proof.
  induction p as [|a p IH]; [done|]. simpl. by rewrite bool_decide_eq_true_2.
Qed.

Lemma strip_prefix_Some p s r : strip_prefix p s = Some r → s = p +:+ r.
Proof.
  revert s. induction p as [|a p IH]; intros s; simpl; [by intros [= ->]|].
  destruct s as [|b s]; [done|]. case_bool_decide as Hab; [|done].
  intros H%IH. by subst.
Qed.

Lemma span_until_lacks c s : lacks c s = true → span_until c s = (s, "").
Proof.
  induction s as [|a s IH]; [done|]. simpl.
  intros [Ha Hs]%andb_true_iff. apply negb_true_iff in Ha. rewrite Ha.
  by rewrite IH.
Qed.

Lemma span_until_app c seg rest :
  lacks c seg = true → span_until c (seg +:+ String c rest) = (seg, String c rest).
Proof.
  induction seg as [|a seg IH]; simpl.
  - intros _. by rewrite bool_decide_eq_true_2.
  - intros [Ha Hs]%andb_true_iff. apply negb_true_iff in Ha. rewrite Ha.
    by rewrite IH.
Qed.

Lemma span_until_spec c s seg rest :
  span_until c s = (seg, rest) →
  s = seg +:+ rest ∧ lacks c seg = true ∧ (rest = "" ∨ ∃ r, rest = String c r).
Proof.
  revert seg rest. induction s as [|a s IH]; intros seg rest; simpl.
  - intros [= <- <-]. auto.
  - case_bool_decide as Hac.
    + intros [= <- <-]. subst a. split; [done|]. split; [done|]. right. eauto.
    + destruct (span_until c s) as [seg' rest'] eqn:Hs. intros [= <- <-].
      destruct (IH seg' rest' eq_refl) as (-> & Hl & Hr).
      split; [done|]. split; [|done]. simpl. by rewrite bool_decide_eq_false_2.
Qed.

Lemma segment_slash_app seg rest :
  seg ≠ "" → lacks "/" seg = true →
  segment_slash (seg +:+ "/" +:+ rest) = Some (seg, rest).
Proof.
  intros Hne Hl. unfold segment_slash.
  change ("/" +:+ rest) with (String "/" rest). rewrite span_until_app by done.
  by destruct seg.
Qed.

Lemma segment_slash_Some s seg rest :
  segment_slash s = Some (seg, rest) →
  s = seg +:+ "/" +:+ rest ∧ seg ≠ "" ∧ lacks "/" seg = true.
Proof.
  unfold segment_slash. destruct (span_until "/" s) as [seg' rest'] eqn:Hs.
  destruct (span_until_spec _ _ _ _ Hs) as (-> & Hl & Hr).
  destruct seg' as [|a seg']; [done|]. destruct rest' as [|b rest']; [done|].
  intros [= <- <-]. destruct Hr as [|[r [= -> ->]]]; [done|]. done.
Qed.

Lemma parse_github_url_of_parts owner repo kind commit path :
  owner ≠ "" → repo ≠ "" → commit ≠ "" →
  lacks "/" owner = true → lacks "/" repo = true → lacks "/" commit = true →
  kind = "tree" ∨ kind = "blob" →
  lacks "010" path = true →
  parse_github_url (github_url owner repo kind commit +:+ "/" +:+ path)
  = Some (owner, repo, commit, path)
  ∧ parse_github_url (github_url owner repo kind commit)
    = Some (owner, repo, commit, "").
Proof.
  intros Ho Hr Hc Hlo Hlr Hlc Hk Hp. unfold github_url, parse_github_url.
  assert (Hkind : ∀ rest,
            match strip_prefix "tree/" (kind +:+ "/" +:+ rest) with
            | Some rest' => Some rest'
            | None => strip_prefix "blob/" (kind +:+ "/" +:+ rest)
            end = Some rest).
  { intros rest. by destruct Hk as [-> | ->]. }
  split.
  - rewrite !string_app_assoc, strip_prefix_app. cbn -[strip_prefix span_until].
    rewrite segment_slash_app by done. cbn -[strip_prefix span_until].
    rewrite segment_slash_app by done. cbn -[strip_prefix span_until].
    rewrite Hkind. cbn -[strip_prefix span_until].
    change ("/" +:+ path) with (String "/" path).
    rewrite span_until_app by done.
    destruct commit as [|a commit]; [done|].
    by rewrite span_until_lacks.
  - rewrite strip_prefix_app. cbn -[strip_prefix span_until].
    rewrite segment_slash_app by done. cbn -[strip_prefix span_until].
    rewrite segment_slash_app by done. cbn -[strip_prefix span_until].
    rewrite <- (string_app_empty commit).
    rewrite Hkind. cbn -[strip_prefix span_until].
    rewrite string_app_empty, span_until_lacks by done.
    by destruct commit.
Qed.

(** X1.  A URL made of an owner, a repository and a commit, none empty
    and none holding a slash, under "tree" or "blob", parses back to
    them: with the path that follows the commit when there is one (any
    text of one line), and with the empty path when the URL ends at the
    commit. *)
Theorem parse_github_url_round_trip owner repo kind commit path :
  owner ≠ "" → repo ≠ "" → commit ≠ "" →
  lacks "/" owner = true → lacks "/" repo = true → lacks "/" commit = true →
  kind = "tree" ∨ kind = "blob" →
  lacks "010" path = true →
  parse_github_url (github_url owner repo kind commit +:+ "/" +:+ path)
  = Some (owner, repo, commit, path)
  ∧ parse_github_url (github_url owner repo kind commit)
    = Some (owner, repo, commit, "").
Proof. apply parse_github_url_of_parts. Qed.

Lemma parse_github_url_round_trip_witness :
  parse_github_url (github_url "acme" "widgets" "tree" "abcdef1234" +:+ "/" +:+ "src/sub")
  = Some ("acme", "widgets", "abcdef1234", "src/sub")
  ∧ parse_github_url (github_url "acme" "widgets" "tree" "abcdef1234")
    = Some ("acme", "widgets", "abcdef1234", "").
Proof.
  apply (parse_github_url_round_trip "acme" "widgets" "tree" "abcdef1234" "src/sub");
    try done.
  by left.
Defined.

Lemma parse_github_url_Some url owner repo commit path :
  parse_github_url url = Some (owner, repo, commit, path) →
  owner ≠ "" ∧ repo ≠ "" ∧ commit ≠ ""
  ∧ lacks "/" owner = true ∧ lacks "/" repo = true ∧ lacks "/" commit = true
  ∧ lacks "010" path = true
  ∧ ∃ kind tail,
      (kind = "tree" ∨ kind = "blob")
      ∧ url = github_url owner repo kind commit +:+ tail
      ∧ (tail = "" ∧ path = ""
         ∨ ∃ after, tail = "/" +:+ path +:+ after
                    ∧ (after = "" ∨ ∃ r, after = String "010" r)).
Proof.
  unfold parse_github_url.
  destruct (strip_prefix "https://github.com/" url) as [rest0|] eqn:H0; [|done].
  apply strip_prefix_Some in H0 as ->. cbn -[strip_prefix span_until].
  destruct (segment_slash rest0) as [[owner' rest1]|] eqn:H1; [|done].
  apply segment_slash_Some in H1 as (-> & Ho & Hlo). cbn -[strip_prefix span_until].
  destruct (segment_slash rest1) as [[repo' rest2]|] eqn:H2; [|done].
  apply segment_slash_Some in H2 as (-> & Hr & Hlr). cbn -[strip_prefix span_until].
  assert (∃ kind rest3,
            (kind = "tree" ∨ kind = "blob") ∧ rest2 = kind +:+ "/" +:+ rest3
            ∧ match strip_prefix "tree/" rest2 with
              | Some rest => Some rest
              | None => strip_prefix "blob/" rest2
              end = Some rest3
            ∨ match strip_prefix "tree/" rest2 with
              | Some rest => Some rest
              | None => strip_prefix "blob/" rest2
              end = None) as Hkind.
  { destruct (strip_prefix "tree/" rest2) as [rest3|] eqn:Ht.
    - apply strip_prefix_Some in Ht as ->. exists "tree", rest3. left. auto.
    - destruct (strip_prefix "blob/" rest2) as [rest3|] eqn:Hb.
      + apply strip_prefix_Some in Hb as ->. exists "blob", rest3. left. auto.
      + exists "", "". by right. }
  destruct Hkind as (kind & rest3 & [(Hk & -> & ->)| ->]); [|done].
  cbn -[strip_prefix span_until].
  destruct (span_until "/" rest3) as [commit' tail] eqn:H3.
  apply span_until_spec in H3 as (-> & Hlc & Htail).
  destruct commit' as [|a commit']; [done|].
  assert (Hurl : ∀ t : string,
            "https://github.com/" +:+ owner' +:+ "/" +:+ repo' +:+ "/" +:+ kind
            +:+ "/" +:+ String a commit' +:+ t
            = github_url owner' repo' kind (String a commit') +:+ t).
  { intros t. unfold github_url. by rewrite !string_app_assoc. }
  destruct tail as [|b tail].
  - intros [= <- <- <- <-]. do 6 (split; [done|]). split; [done|].
    exists kind, "". split; [done|]. split; [apply Hurl|]. by left.
  - destruct Htail as [|[r [= -> ->]]]; [done|].
    destruct (span_until "010" r) as [path' after] eqn:H4.
    apply span_until_spec in H4 as (-> & Hlp & Hafter).
    intros [= <- <- <- <-]. do 6 (split; [done|]). split; [done|].
    exists kind, (String "/" (path' +:+ after)). split; [done|].
    split; [apply Hurl|]. right. exists after. split; [done|].
    destruct Hafter as [->|[r' ->]]; eauto.
Qed.

(** X2.  Whatever [parse_github_url] accepts has the shape of a
    repository URL: the fixed prefix, then an owner, a repository and a
    commit that are not empty and hold no slash, under "tree" or
    "blob".  The path is what follows the commit and a slash, cut at
    the first newline, and is empty when nothing follows. *)
Theorem parse_github_url_sound url owner repo commit path :
  parse_github_url url = Some (owner, repo, commit, path) →
  owner ≠ "" ∧ repo ≠ "" ∧ commit ≠ ""
  ∧ lacks "/" owner = true ∧ lacks "/" repo = true ∧ lacks "/" commit = true
  ∧ lacks "010" path = true
  ∧ ∃ kind tail,
      (kind = "tree" ∨ kind = "blob")
      ∧ url = github_url owner repo kind commit +:+ tail
      ∧ (tail = "" ∧ path = ""
         ∨ ∃ after, tail = "/" +:+ path +:+ after
                    ∧ (after = "" ∨ ∃ r, after = String "010" r)).
Proof. apply parse_github_url_Some. Qed.

Lemma parse_github_url_sound_witness :
  let url := "https://github.com/acme/widgets/blob/abcdef1234/docs/readme.md" in
  parse_github_url url = Some ("acme", "widgets", "abcdef1234", "docs/readme.md")
  ∧ lacks "/" "abcdef1234" = true
  ∧ ∃ kind tail,
      (kind = "tree" ∨ kind = "blob")
      ∧ url = github_url "acme" "widgets" kind "abcdef1234" +:+ tail.
Proof.
  intros url.
  assert (Hp : parse_github_url url
               = Some ("acme", "widgets", "abcdef1234", "docs/readme.md"))
    by reflexivity.
  destruct (parse_github_url_sound url _ _ _ _ Hp)
    as (_ & _ & _ & _ & _ & Hlc & _ & kind & tail & Hk & Hurl & _).
  split; [exact Hp|]. split; [exact Hlc|]. exists kind, tail. auto.
Defined.

(** ** [list_directory_contents] and [download_file] *)

(** X3.  [list_directory_contents] never raises and touches nothing but
    the network: it sends exactly one request, to the contents URL, with
    the credentials and a timeout of 15.  It answers success exactly
    when the reply has status 200 and a body that parses as JSON, and
    then hands that JSON over; in every other case it answers the empty
    list. *)
Theorem list_directory_contents_one_request env u r p c auth :
  ∃ contents (ok : bool),
    runs (list_directory_contents env u r p c auth) (Return (contents, ok))
         [Get (contents_url u r p c) auth 15]
    ∧ (ok = true ↔
       ∃ resp, remote env (contents_url u r p c) auth = Some resp
               ∧ status_code resp = 200 ∧ json resp = Some contents)
    ∧ (ok = false → contents = JArray []).
Proof.
  exists (listing env u r p c auth).1, (listing env u r p c auth).2.
  split; [by rewrite <- surjective_pairing; apply list_directory_contents_runs|].
  unfold listing. destruct (remote env _ auth) as [resp|]; simpl.
  2:{ split; [|done]. split; [done|]. by intros (? & ? & _). }
  case_bool_decide as Hst; simpl.
  2:{ split; [|done]. split; [done|]. intros (? & [= <-] & ? & _). done. }
  destruct (json resp) as [j|] eqn:Hj; simpl.
  - split; [|done]. split; [eauto|done].
  - split; [|done]. split; [done|]. intros (? & [= <-] & _ & ?). congruence.
Qed.

(** The trace of a download, request by request. *)
Lemma download_file_trace b64decode env u r fp fn od c auth :
  wp (download_file b64decode env u r fp fn od c auth)
     (λ o t, ∃ (ok : bool) gets tail,
        o = Return ok ∧ t = gets ++ tail
        ∧ (gets = [Get (contents_url u r fp c) auth 15]
           ∨ gets = [Get (contents_url u r fp c) auth 15;
                     Get (raw_content_url u r c fp) auth 15])
        ∧ (if ok
           then ∃ m data, tail = [Open (os_path_join od fn) m;
                                  Write (os_path_join od fn) data]
           else tail = [])).
Proof.
  unfold download_file. unfold_prims. wp_run.
  all: first
    [ by eexists false, [_], []; split; [|split; [|split; [left|]]]
    | by eexists false, [_; _], []; split; [|split; [|split; [right|]]]
    | by eexists true, [_], _; split; [|split; [|split; [left|eauto]]]
    | by eexists true, [_; _], _; split; [|split; [|split; [right|eauto]]] ].
Qed.


Lemma play_gets t w :
  Forall is_get t → files (play t w) = files w ∧ dirs (play t w) = dirs w.
Proof.
  intros Hg. revert w. induction Hg as [|e t He _ IH]; intros w; [done|].
  rewrite play_cons. destruct (IH (apply_event e w)) as [-> ->].
  by destruct e.
Qed.


(** X6.  When the disk refuses to open the output file, the download
    answers [False] whatever the remote sends, on either channel, and
    leaves every file as it was. *)
Theorem download_file_refused_open b64decode env u r fp fn od c auth :
  open_refused env (os_path_join od fn) = true →
  ∃ t, runs (download_file b64decode env u r fp fn od c auth) (Return false) t
       ∧ Forall is_get t
       ∧ ∀ w, files (play t w) = files w.
Proof.
  intros Hopen.
  assert (wp (download_file b64decode env u r fp fn od c auth)
            (λ o t, o = Return false ∧ Forall is_get t)) as (o & t & Hrun & -> & Hg).
  { unfold download_file. unfold_prims. wp_run; settle.
    all: split; [done|repeat constructor]. }
  exists t. split; [exact Hrun|]. split; [exact Hg|].
  intros w. by apply play_gets.
Qed.

Lemma download_file_refused_open_witness :
  open_refused Cases.read_only (os_path_join "out/src" "a.txt") = true
  ∧ ∃ t, runs (download_file Sample.b64decode Cases.read_only "acme" "widgets"
                 "src/a.txt" "a.txt" "out/src" "abcdef1" Sample.auth) (Return false) t
         ∧ Forall is_get t
         ∧ ∀ w, files (play t w) = files w.
Proof.
  split; [reflexivity|].
  apply (download_file_refused_open Sample.b64decode Cases.read_only "acme" "widgets"
           "src/a.txt" "a.txt" "out/src" "abcdef1" Sample.auth).
  reflexivity.
Defined.





(** X9.  When the contents API answers with a status other than 200 and
    the raw endpoint then fails too, by raising or by a status other
    than 200, the download answers [False] after exactly these two
    requests and writes nothing. *)
Theorem both_channels_fail b64decode env u r fp fn od c auth resp :
  remote env (contents_url u r fp c) auth = Some resp →
  status_code resp ≠ 200 →
  (remote env (raw_content_url u r c fp) auth = None
   ∨ ∃ raw, remote env (raw_content_url u r c fp) auth = Some raw
            ∧ status_code raw ≠ 200) →
  runs (download_file b64decode env u r fp fn od c auth) (Return false)
    [Get (contents_url u r fp c) auth 15;
     Get (raw_content_url u r c fp) auth 15].
Proof.
  intros Hapi Hst Hraw. apply wp_runs. unfold download_file. unfold_prims.
  destruct Hraw as [Hraw|(raw & Hraw & Hrst)]; wp_run; settle.
Qed.

Lemma both_channels_fail_witness :
  ∃ resp,
    remote Sample.widgets (contents_url "acme" "widgets" "src/gone.txt" "abcdef1")
      Sample.auth = Some resp
    ∧ status_code resp ≠ 200
    ∧ runs (download_file Sample.b64decode Sample.widgets "acme" "widgets"
              "src/gone.txt" "gone.txt" "out/src" "abcdef1" Sample.auth)
        (Return false)
        [Get (contents_url "acme" "widgets" "src/gone.txt" "abcdef1") Sample.auth 15;
         Get (raw_content_url "acme" "widgets" "abcdef1" "src/gone.txt")
           Sample.auth 15].
Proof.
  eexists. split; [vm_compute; reflexivity|]. split; [simpl; discriminate|].
  eapply (both_channels_fail Sample.b64decode Sample.widgets "acme" "widgets"
            "src/gone.txt" "gone.txt" "out/src" "abcdef1" Sample.auth).
  - vm_compute; reflexivity.
  - simpl; discriminate.
  - right. eexists. split; [vm_compute; reflexivity|]. simpl; discriminate.
Defined.

(** ** [process_directory] *)

Lemma for_each_raise {A S} (body : A → S → M S) item rest acc e w :
  body item acc w = (Raise e, w) →
  for_each (item :: rest) acc body w = (Raise e, w).
Proof. intros H. simpl. unfold mbind, M_bind. by rewrite H. Qed.

Lemma for_each_skip {A S} (body : A → S → M S) item rest acc w :
  body item acc w = (Return acc, w) →
  for_each (item :: rest) acc body w = for_each rest acc body w.
Proof. intros H. simpl. unfold mbind, M_bind. by rewrite H. Qed.

(** X10.  When the listing request is answered with status 200 by JSON
    that is not an array, as the contents API does for the path of a
    file, the walk does not treat it as a failed listing: after that
    single request it raises [TypeError] on an object with at least one
    key, on a non-empty string and on a scalar, and returns 0 on an
    empty object or an empty string. *)
Theorem process_directory_on_non_array b64decode env fuel u r p out c auth contents :
  listing env u r p c auth = (contents, true) →
  let walk := process_directory b64decode env (S fuel) u r p out c auth in
  let request := [Get (contents_url u r p c) auth 15] in
  (contents = JScalar → runs walk (Raise TypeError) request)
  ∧ (∀ d, contents = JObject d → d ≠ ∅ → runs walk (Raise TypeError) request)
  ∧ (∀ s, contents = JString s → s ≠ "" → runs walk (Raise TypeError) request)
  ∧ (contents = JObject ∅ ∨ contents = JString "" → runs walk (Return 0%nat) request).
Proof.
  intros Hlist walk request.
  assert (Hstart : ∀ w, walk w
            = (items ← py_iter contents;
               for_each items 0%nat
                 (process_entry b64decode env
                    (λ sub, process_directory b64decode env fuel u r sub out c auth)
                    u r p out c auth)) (play request w)).
  { intros w. unfold walk. simpl. unfold mbind at 1, M_bind at 1.
    by rewrite list_directory_contents_runs, Hlist. }
  split; [|split; [|split]].
  - intros -> w. by rewrite Hstart.
  - intros d -> Hd w. rewrite Hstart. simpl. unfold mbind, M_bind, mret, M_ret.
    destruct (map_to_list d) as [|[k v] kvs] eqn:Hkvs.
    { by apply map_to_list_empty_iff in Hkvs. }
    done.
  - intros s -> Hs w. rewrite Hstart. simpl. unfold mbind, M_bind, mret, M_ret.
    by destruct s.
  - intros [-> | ->] w; rewrite Hstart; simpl; unfold mbind, M_bind, mret, M_ret.
    + by rewrite map_to_list_empty.
    + done.
Qed.

Lemma process_directory_on_non_array_witness :
  ∃ d,
    listing Sample.widgets "acme" "widgets" "src/a.txt" "abcdef1" Sample.auth
    = (JObject d, true)
    ∧ d ≠ ∅
    ∧ runs (process_directory Sample.b64decode Sample.widgets 1 "acme" "widgets"
              "src/a.txt" "out" "abcdef1" Sample.auth)
        (Raise TypeError)
        [Get (contents_url "acme" "widgets" "src/a.txt" "abcdef1") Sample.auth 15].
Proof.
  assert (Hne : ∀ d : gmap string JValue, d !! "type" = Some (JStr "file") → d ≠ ∅).
  { intros d Hd ->. by rewrite lookup_empty in Hd. }
  destruct (listing Sample.widgets "acme" "widgets" "src/a.txt" "abcdef1" Sample.auth)
    as [contents ok] eqn:Hl.
  vm_compute in Hl.
  destruct contents as [|d| |]; try discriminate Hl.
  destruct ok; [|discriminate Hl].
  assert (Hd : d ≠ ∅).
  { apply Hne. injection Hl as <-. vm_compute. reflexivity. }
  exists d. split; [reflexivity|]. split; [exact Hd|].
  assert (Hl' : listing Sample.widgets "acme" "widgets" "src/a.txt" "abcdef1"
                  Sample.auth = (JObject d, true)).
  { vm_compute. exact Hl. }
  destruct (process_directory_on_non_array Sample.b64decode Sample.widgets 0
              "acme" "widgets" "src/a.txt" "out" "abcdef1" Sample.auth
              (JObject d) Hl') as (_ & Hobj & _).
  exact (Hobj d eq_refl Hd).
Defined.

(** X11.  [os.makedirs] is not guarded: when the disk refuses to create
    the output directory for the first file entry that is not skipped,
    the walk stops there and raises [OSError]; nothing is downloaded,
    neither for that entry nor for those listed after it. *)
Theorem makedirs_failure_aborts_walk
    b64decode env fuel u r p out c auth pre item post :
  listing env u r p c auth = (JArray (pre ++ item :: post), true) →
  (∀ i, i ∈ pre → hidden i = true ∨ file_or_dir i = false) →
  hidden item = false →
  item_type item = "file" →
  makedirs_refused env (os_path_join out p) = true →
  runs (process_directory b64decode env (S fuel) u r p out c auth)
       (Raise OSError) [Get (contents_url u r p c) auth 15].
Proof.
  intros Hlist Hpre Hh Hf Hmk w. simpl. unfold mbind at 1, M_bind at 1.
  rewrite list_directory_contents_runs, Hlist. simpl.
  unfold mbind, M_bind, mret, M_ret. rewrite for_each_fmap.
  generalize (play [Get (contents_url u r p c) auth 15] w). intros w'.
  generalize 0%nat. intros acc. clear Hlist.
  induction pre as [|i pre IH].
  - apply for_each_raise. unfold process_entry, hidden in *.
    rewrite Hh, (bool_decide_eq_true_2 _ Hf).
    unfold mbind, M_bind, os_makedirs. by rewrite Hmk.
  - change ((i :: pre) ++ item :: post) with (i :: (pre ++ item :: post)).
    rewrite for_each_skip.
    + apply IH. intros i' Hi'. apply Hpre. by right.
    + destruct (Hpre i) as [Hi|Hi]; [by left| |].
      * by apply process_entry_hidden.
      * unfold file_or_dir in Hi. apply orb_false_iff in Hi as [Hi1 Hi2].
        apply bool_decide_eq_false in Hi1, Hi2. by apply process_entry_other.
Qed.

Lemma makedirs_failure_aborts_walk_witness :
  ∃ item post,
    listing Cases.no_mkdir "acme" "widgets" "src" "abcdef1" Sample.auth
    = (JArray ([] ++ item :: post), true)
    ∧ hidden item = false
    ∧ item_type item = "file"
    ∧ makedirs_refused Cases.no_mkdir (os_path_join "out" "src") = true
    ∧ runs (process_directory Sample.b64decode Cases.no_mkdir 3 "acme" "widgets"
              "src" "out" "abcdef1" Sample.auth)
        (Raise OSError)
        [Get (contents_url "acme" "widgets" "src" "abcdef1") Sample.auth 15].
Proof.
  eexists _, _. split; [vm_compute; reflexivity|].
  split; [reflexivity|]. split; [reflexivity|]. split; [reflexivity|].
  eapply (makedirs_failure_aborts_walk Sample.b64decode Cases.no_mkdir 2
            "acme" "widgets" "src" "out" "abcdef1" Sample.auth []).
  - vm_compute; reflexivity.
  - intros i Hi. by apply elem_of_nil in Hi.
  - reflexivity.
  - reflexivity.
  - reflexivity.
Defined.

Section Requests.
Variable b64decode : string → option bytes.
Variable env : Env.

Lemma download_file_requests u r fp fn od c auth :
  wp (download_file b64decode env u r fp fn od c auth)
     (λ o t, (∃ ok, o = Return ok) ∧ Forall (request_of_walk u r c auth) t).
Proof.
  eapply wp_mono; [apply download_file_trace|].
  intros o t (ok & gets & tail & -> & -> & Hgets & Htail). split; [eauto|].
  apply Forall_app. split.
  - destruct Hgets as [-> | ->]; repeat constructor; simpl; eauto.
  - destruct ok; [destruct Htail as (m & data & ->)|subst tail];
      repeat constructor.
Qed.

Lemma process_entry_requests rec u r p out c auth item acc :
  (∀ sub, wp (rec sub) (λ _ t, Forall (request_of_walk u r c auth) t)) →
  wp (process_entry b64decode env rec u r p out c auth item acc)
     (λ _ t, Forall (request_of_walk u r c auth) t).
Proof.
  intros Hrec. unfold process_entry. unfold_prims.
  destruct item as [item|key]; [|by wp_run].
  destruct (startswith _ _); [by apply wp_ret|].
  destruct (bool_decide (item_type item = "file")).
  - wp_step. destruct (makedirs_refused env _); wp_run; [done|].
    eapply wp_mono; [apply download_file_requests|].
    intros o t [[ok ->] Ht]. destruct ok; wp_run.
    + constructor; [done|]. apply Forall_app. split; [done|]. by repeat constructor.
    + constructor; [done|]. by rewrite app_nil_r.
  - destruct (bool_decide (item_type item = "dir")); [|by apply wp_ret].
    wp_step. eapply wp_mono; [apply Hrec|].
    intros [n| |] t Ht; simpl; [|done..].
    wp_run. by rewrite app_nil_r.
Qed.

Lemma process_directory_requests fuel u r p out c auth :
  wp (process_directory b64decode env fuel u r p out c auth)
     (λ _ t, Forall (request_of_walk u r c auth) t).
Proof.
  revert p. induction fuel as [|fuel IH]; intros p; simpl.
  { by apply wp_out_of_fuel. }
  apply wp_bind, wp_list_directory_contents.
  assert (Hget : Forall (request_of_walk u r c auth) [Get (contents_url u r p c) auth 15]).
  { repeat constructor; simpl; eauto. }
  destruct (listing env u r p c auth) as [contents [|]]; simpl.
  2:{ by apply wp_ret. }
  apply wp_bind.
  assert (Hloop : ∀ items : list (Item + string),
    wp (for_each items 0%nat
          (process_entry b64decode env
             (λ sub, process_directory b64decode env fuel u r sub out c auth)
             u r p out c auth))
       (λ _ t', Forall (request_of_walk u r c auth)
                  ([Get (contents_url u r p c) auth 15] ++ t'))).
  { intros items.
    apply (wp_for_each _ (λ _ t, Forall (request_of_walk u r c auth) t)
             (λ _ t, Forall (request_of_walk u r c auth) t)); [|done|done].
    intros item acc t _ Ht.
    eapply wp_mono; [apply process_entry_requests, IH|].
    intros o t' Ht'. destruct o; by apply Forall_app. }
  destruct contents; simpl; try (apply wp_ret; simpl; apply Hloop).
  by apply wp_raise.
Qed.
End Requests.

(** X12.  Whatever the remote answers and whatever the outcome, every
    request of a walk is sent with the credentials it was given and a
    timeout of 15, and goes to the contents API or to the raw endpoint
    of the one repository and commit it was started for: no other host,
    repository or revision is ever asked. *)
Theorem walk_requests_stay_on_repository b64decode env fuel u r p out c auth :
  ∃ o t,
    runs (process_directory b64decode env fuel u r p out c auth) o t
    ∧ Forall (request_of_walk u r c auth) t.
Proof. apply process_directory_requests. Qed.

(** ** Where the walk writes *)

Lemma prefix_app (a b : string) : String.prefix a (a +:+ b) = true.
Proof.
  induction a as [|x a IH]; [by destruct b|].
  change (String x a +:+ b) with (String x (a +:+ b)).
  cbn [String.prefix]. by destruct (Ascii.ascii_dec x x).
Qed.

Lemma prefix_trans (a b c : string) :
  String.prefix a b = true → String.prefix b c = true → String.prefix a c = true.
Proof.
  revert b c. induction a as [|x a IH]; intros b c; [by destruct c|].
  destruct b as [|y b]; [done|]. destruct c as [|z c]; [done|]. simpl.
  destruct (Ascii.ascii_dec x y) as [->|]; [|done].
  destruct (Ascii.ascii_dec y z) as [->|]; [|done].
  apply IH.
Qed.

Lemma os_path_join_under a b :
  relative b = true → String.prefix a (os_path_join a b) = true.
Proof.
  unfold relative, os_path_join. intros Hb%negb_true_iff. rewrite Hb.
  destruct (_ || _); apply prefix_app.
Qed.

Lemma listing_array env u r p c auth items :
  listing env u r p c auth = (JArray items, true) →
  ∃ resp, remote env (contents_url u r p c) auth = Some resp
          ∧ json resp = Some (JArray items).
Proof.
  unfold listing. destruct (remote env _ auth) as [resp|]; [|done].
  destruct (bool_decide _); [|done].
  destruct (json resp) as [j|] eqn:Hj; [|done]. intros [= ->]. eauto.
Qed.

Section Containment.
Variable b64decode : string → option bytes.
Variable env : Env.
Hypothesis Hrel : lists_relative_names env.

Lemma listed_entry_relative u r p c auth items item :
  listing env u r p c auth = (JArray items, true) → item ∈ items →
  relative (item_name item) = true ∧ relative (item_path item) = true.
Proof.
  intros (resp & Hresp & Hj)%listing_array Hin.
  specialize (Hrel (contents_url u r p c) auth).
  rewrite Hresp in Hrel. simpl in Hrel. rewrite Hj in Hrel.
  rewrite forallb_forall in Hrel. apply list_elem_of_In, Hrel in Hin.
  by apply andb_true_iff in Hin.
Qed.

Lemma process_entry_stays_under rec u r p out c auth item acc :
  relative p = true →
  relative (item_name item) = true →
  (item_type item = "dir" →
   wp (rec (item_path item)) (λ _ t, Forall (stays_under out) t)) →
  wp (process_entry b64decode env rec u r p out c auth (inl item) acc)
     (λ _ t, Forall (stays_under out) t).
Proof.
  intros Hp Hn Hrec. unfold process_entry. unfold_prims.
  destruct (startswith _ _); [by apply wp_ret|].
  destruct (bool_decide (item_type item = "file")).
  - assert (Hd : String.prefix out (os_path_join out p) = true)
      by (by apply os_path_join_under).
    assert (Hq : String.prefix out
                   (os_path_join (os_path_join out p) (item_name item)) = true).
    { eapply prefix_trans; [exact Hd|]. by apply os_path_join_under. }
    wp_step. destruct (makedirs_refused env _); wp_run; [done|].
    eapply wp_mono; [apply download_file_trace|].
    intros o t (ok & gets & tail & -> & -> & Hgets & Htail).
    assert (Ht : Forall (stays_under out) (gets ++ tail)).
    { apply Forall_app. split.
      - destruct Hgets as [-> | ->]; by repeat constructor.
      - destruct ok; [destruct Htail as (m & data & ->)|subst tail];
          by repeat constructor. }
    destruct ok; wp_run.
    + constructor; [done|]. apply Forall_app. split; [done|]. by repeat constructor.
    + constructor; [done|]. by rewrite app_nil_r.
  - destruct (bool_decide (item_type item = "dir")) eqn:Hdir; [|by apply wp_ret].
    apply bool_decide_eq_true in Hdir.
    wp_step. eapply wp_mono; [by apply Hrec|].
    intros [n| |] t Ht; simpl; [|done..].
    wp_run. by rewrite app_nil_r.
Qed.

Lemma process_directory_stays_under fuel u r p out c auth :
  relative p = true →
  wp (process_directory b64decode env fuel u r p out c auth)
     (λ _ t, Forall (stays_under out) t).
Proof.
  revert p. induction fuel as [|fuel IH]; intros p Hp; simpl.
  { by apply wp_out_of_fuel. }
  apply wp_bind, wp_list_directory_contents.
  destruct (listing env u r p c auth) as [contents [|]] eqn:Hlist; simpl.
  2:{ apply wp_ret. by repeat constructor. }
  apply wp_bind.
  assert (Hloop : ∀ items : list (Item + string),
    (∀ item, inl item ∈ items →
       relative (item_name item) = true ∧ relative (item_path item) = true) →
    wp (for_each items 0%nat
          (process_entry b64decode env
             (λ sub, process_directory b64decode env fuel u r sub out c auth)
             u r p out c auth))
       (λ _ t', Forall (stays_under out)
                  ([Get (contents_url u r p c) auth 15] ++ t'))).
  { intros items Hitems.
    apply (wp_for_each _ (λ _ t, Forall (stays_under out) t)
             (λ _ t, Forall (stays_under out) t));
      [|done|by repeat constructor].
    intros [item|key] acc t Hin Ht.
    - destruct (Hitems item Hin) as [Hn Hip].
      eapply wp_mono; [apply process_entry_stays_under; [done..|]|].
      + intros _. by apply IH.
      + intros o t' Ht'. destruct o; by apply Forall_app.
    - unfold process_entry. apply wp_raise. by rewrite app_nil_r. }
  destruct contents as [items|d|s|]; simpl.
  - apply wp_ret. simpl. apply Hloop.
    intros item (item' & [= <-] & Hin)%list_elem_of_fmap.
    by apply (listed_entry_relative u r p c auth items).
  - apply wp_ret. simpl. apply Hloop.
    by intros item (? & ? & ?)%list_elem_of_fmap.
  - apply wp_ret. simpl. apply Hloop.
    by intros item (? & ? & ?)%list_elem_of_fmap.
  - apply wp_raise. by repeat constructor.
Qed.
End Containment.

(** X13.  A walk writes under its output root only: when the path it
    starts from and the names and paths the remote lists do not start
    with a slash, every directory it creates and every file it opens or
    writes has a path that begins with the output root, whatever the
    outcome. *)
Theorem walk_stays_under_output_root b64decode env fuel u r p out c auth :
  lists_relative_names env →
  relative p = true →
  ∃ o t,
    runs (process_directory b64decode env fuel u r p out c auth) o t
    ∧ Forall (stays_under out) t.
Proof. intros Hrel Hp. by apply process_directory_stays_under. Qed.

Lemma env_of_lists_relative table :
  forallb (λ kv, relative_entries kv.2) table = true →
  lists_relative_names (Sample.env_of table).
Proof.
  intros Htable url auth. simpl. unfold Sample.remote_of.
  destruct (_ !! url) as [v|] eqn:Hv; [|done]. simpl.
  apply elem_of_list_to_map_2, list_elem_of_In in Hv.
  rewrite forallb_forall in Htable. apply (Htable _ Hv).
Qed.

Lemma walk_stays_under_output_root_witness :
  ∃ o t, runs (Sample.walk_widgets 3) o t ∧ Forall (stays_under "out") t.
Proof.
  apply (walk_stays_under_output_root Sample.b64decode Sample.widgets 3
           "acme" "widgets" "src" "out" "abcdef1" Sample.auth).
  - apply env_of_lists_relative. vm_compute. reflexivity.
  - reflexivity.
Defined.

(** ** Fuel *)








(** ** Absolute paths *)

(** X15.  A doubled slash after the commit is accepted by the parser
    and makes the folder path absolute; a file entry walked at an
    absolute path is then stored in that very directory, which
    [os.makedirs] creates, and not under the output directory the walk
    was given. *)
Theorem doubled_slash_leaves_output_directory
    b64decode env rec owner repo kind commit rest out auth item acc :
  owner ≠ "" → repo ≠ "" → commit ≠ "" →
  lacks "/" owner = true → lacks "/" repo = true → lacks "/" commit = true →
  kind = "tree" ∨ kind = "blob" →
  lacks "010" rest = true →
  creates_directories env →
  hidden item = false →
  item_type item = "file" →
  parse_github_url (github_url owner repo kind commit +:+ "//" +:+ rest)
  = Some (owner, repo, commit, "/" +:+ rest)
  ∧ ∃ (ok : bool) t,
      runs (download_file b64decode env owner repo (item_path item) (item_name item)
              ("/" +:+ rest) commit auth) (Return ok) t
      ∧ runs (process_entry b64decode env rec owner repo ("/" +:+ rest) out commit
                auth (inl item) acc)
          (Return (if ok then acc + 1 else acc)%nat)
          (Makedirs ("/" +:+ rest) :: t ++ (if ok then [Sleep 0.1 0.5] else [])).
Proof.
  intros Ho Hr Hc Hlo Hlr Hlc Hk Hrest Hmk Hvis Hfile. split.
  - by apply (parse_github_url_of_parts owner repo kind commit ("/" +:+ rest)).
  - assert (Hjoin : os_path_join out ("/" +:+ rest) = "/" +:+ rest).
    { unfold os_path_join, startswith.
      change ("/" +:+ rest) with (String "/" rest). by destruct rest. }
    destruct (process_entry_file b64decode env rec owner repo ("/" +:+ rest) out
                commit auth item acc Hmk Hvis Hfile) as (ok & t & Hdown & Hentry).
    rewrite Hjoin in Hdown, Hentry. by exists ok, t.
Qed.

Lemma doubled_slash_leaves_output_directory_witness :
  parse_github_url "https://github.com/acme/widgets/tree/abcdef1//etc"
  = Some ("acme", "widgets", "abcdef1", "/etc")
  ∧ ∃ (ok : bool) t,
      runs (download_file Sample.b64decode Sample.widgets "acme" "widgets"
              "/etc/passwd" "passwd" "/etc" "abcdef1" Sample.auth) (Return ok) t
      ∧ runs (process_entry Sample.b64decode Sample.widgets (λ _, mret 0%nat)
                "acme" "widgets" "/etc" "out" "abcdef1" Sample.auth
                (inl (Sample.entry "passwd" "/etc/passwd" "file")) 0%nat)
          (Return (if ok then 0 + 1 else 0)%nat)
          (Makedirs "/etc" :: t ++ (if ok then [Sleep 0.1 0.5] else [])).
Proof.
  apply (doubled_slash_leaves_output_directory Sample.b64decode Sample.widgets
           (λ _, mret 0%nat) "acme" "widgets" "tree" "abcdef1" "etc" "out"
           Sample.auth (Sample.entry "passwd" "/etc/passwd" "file") 0%nat);
    try done.
  by left.
Defined.

(** ** The entry point *)

Lemma prefix_refl (a : string) : String.prefix a a = true.
Proof.
  induction a as [|x a IH]; [done|]. simpl. by destruct (Ascii.ascii_dec x x).
Qed.

Lemma download_dir_join repo commit :
  repo ≠ "" → lacks "/" repo = true →
  os_path_join OUTPUT_DIR (repo +:+ "_" +:+ substring 0 7 commit)
  = download_dir repo commit.
Proof.
  intros Hne Hl. destruct repo as [|a repo]; [done|].
  simpl in Hl. apply andb_true_iff in Hl as [Ha%negb_true_iff%bool_decide_eq_false _].
  unfold os_path_join, startswith.
  change (String a repo +:+ "_" +:+ substring 0 7 commit)
    with (String a (repo +:+ "_" +:+ substring 0 7 commit)).
  cbn [String.prefix]. destruct (Ascii.ascii_dec "/" a) as [<-|_]; [done|].
  reflexivity.
Qed.

Section Main.
Variable b64decode : string → option bytes.
Variable env : Env.

(** Past its checks, [main] creates the download directory and walks
    into it. *)
Lemma main_walks proc fuel auth url owner repo commit path w :
  has_credentials proc auth →
  signed_in env auth →
  stdin_line proc = Some url →
  parse_github_url url = Some (owner, repo, commit, path) →
  main b64decode env proc fuel w
  = match (os_makedirs env (download_dir repo commit);;
           process_directory b64decode env fuel owner repo path
             (download_dir repo commit) commit auth) w with
    | (Return files_downloaded, w') => (Completed files_downloaded, w')
    | (Raise e, w') => (Uncaught e, w')
    | (OutOfFuel, w') => (Unfinished, w')
    end.
Proof.
  intros [Hu Ht] (response & user_data & Hprobe & Hstatus & Hjson) Hin Hparse.
  destruct (parse_github_url_Some _ _ _ _ _ Hparse) as (_ & Hr & _ & _ & Hlr & _).
  destruct auth as [user token]. simpl in Hu, Ht.
  unfold main. rewrite Hu, Ht, Hprobe, Hstatus, Hjson, Hin, Hparse.
  rewrite bool_decide_true by done. by rewrite download_dir_join.
Qed.
End Main.

(** X16.  [main] calls [sys.exit] with status 1 only, and only before
    anything was created or written and before any request of the walk
    was sent. *)
Theorem main_exits_before_any_effect b64decode env proc fuel w code w' :
  main b64decode env proc fuel w = (Exited code, w') →
  code = 1 ∧ w' = w.
Proof.
  unfold main.
  repeat match goal with
         | |- context [match ?x with _ => _ end] =>
             lazymatch x with
             | context [match _ with _ => _ end] => fail
             | _ => destruct x
             end
         | |- context [if ?b then _ else _] => destruct b
         end;
    intros H; by simplify_eq.
Qed.

Lemma main_exits_before_any_effect_witness :
  (1 : Z) = 1 ∧ fresh = fresh.
Proof.
  apply (main_exits_before_any_effect Sample.b64decode Sample.widgets
           (Cases.terminal None) 5 fresh 1 fresh).
  vm_compute. reflexivity.
Defined.

(** X17.  With credentials the remote accepts and a URL the parser
    accepts, [main] never exits: it walks the repository, and every
    directory it creates and every file it opens or writes lies under
    [github_download/<repository>_<first seven characters of the
    commit>], provided the folder path and the names and paths the
    remote lists do not start with a slash.  Every request of the walk
    goes to that repository at that commit with those credentials, and
    the count [main] reports at its normal end is the number of files
    it wrote. *)
Theorem main_downloads_into_one_directory
    b64decode env proc fuel auth url owner repo commit path w :
  has_credentials proc auth →
  signed_in env auth →
  stdin_line proc = Some url →
  parse_github_url url = Some (owner, repo, commit, path) →
  relative path = true →
  lists_relative_names env →
  ∃ result t,
    main b64decode env proc fuel w = (result, play t w)
    ∧ Forall (stays_under (download_dir repo commit)) t
    ∧ Forall (request_of_walk owner repo commit auth) t
    ∧ (∀ n, result = Completed n → n = persisted t)
    ∧ (∀ code, result ≠ Exited code).
Proof.
  intros Hcred Hsigned Hin Hparse Hpath Hrel.
  rewrite (main_walks b64decode env proc fuel auth url owner repo commit path w)
    by done.
  set (dir := download_dir repo commit).
  assert (Hwalk :
    wp (os_makedirs env dir;;
        process_directory b64decode env fuel owner repo path dir commit auth)
       (λ o t, Forall (stays_under dir) t
               ∧ Forall (request_of_walk owner repo commit auth) t
               ∧ ∀ n, o = Return n → n = persisted t)).
  { apply wp_bind. unfold os_makedirs.
    destruct (makedirs_refused env dir).
    { apply wp_raise. by repeat constructor. }
    apply wp_emit.
    eapply wp_mono.
    - apply wp_and; [|apply wp_and].
      + by apply (process_directory_stays_under b64decode env Hrel fuel
                    owner repo path dir commit auth).
      + apply (process_directory_requests b64decode env fuel owner repo path dir
                 commit auth).
      + apply (process_directory_tallies b64decode env fuel owner repo path dir
                 commit auth).
    - intros o t (Hunder & Hreq & _ & Hn). simpl. split; [|split].
      + constructor; [apply prefix_refl|done].
      + by constructor.
      + intros n Ho. apply Hn in Ho. by rewrite Ho. }
  destruct Hwalk as (o & t & Hrun & Hunder & Hreq & Hn).
  rewrite (Hrun w). destruct o as [n|e|].
  - exists (Completed n), t. repeat split; try done.
    intros m [= <-]. by apply Hn.
  - by exists (Uncaught e), t.
  - by exists Unfinished, t.
Qed.

Lemma logged_in_lists_relative : lists_relative_names Cases.logged_in.
Proof.
  intros url auth. simpl. destruct (bool_decide _); [reflexivity|].
  assert (Hw : lists_relative_names Sample.widgets).
  { apply env_of_lists_relative. vm_compute. reflexivity. }
  exact (Hw url auth).
Qed.

Lemma main_downloads_into_one_directory_witness :
  ∃ result t,
    main Sample.b64decode Cases.logged_in
      (Cases.terminal (Some "https://github.com/acme/widgets/tree/abcdef1/src"))
      3 fresh
    = (result, play t fresh)
    ∧ Forall (stays_under "github_download/widgets_abcdef1") t
    ∧ Forall (request_of_walk "acme" "widgets" "abcdef1" Sample.auth) t
    ∧ (∀ n, result = Completed n → n = persisted t)
    ∧ (∀ code, result ≠ Exited code).
Proof.
  apply (main_downloads_into_one_directory Sample.b64decode Cases.logged_in
           (Cases.terminal (Some "https://github.com/acme/widgets/tree/abcdef1/src"))
           3 Sample.auth "https://github.com/acme/widgets/tree/abcdef1/src"
           "acme" "widgets" "abcdef1" "src" fresh).
  - split; vm_compute; reflexivity.
  - eexists _, _. split; [reflexivity|]. split; reflexivity.
  - reflexivity.
  - vm_compute. reflexivity.
  - reflexivity.
  - apply logged_in_lists_relative.
Defined.

Lemma walk_on_object b64decode env fuel u r p out c auth d :
  listing env u r p c auth = (JObject d, true) →
  d ≠ ∅ →
  runs (process_directory b64decode env (S fuel) u r p out c auth)
       (Raise TypeError) [Get (contents_url u r p c) auth 15].
Proof.
  intros Hlist Hd w. simpl. unfold mbind at 1, M_bind at 1.
  rewrite list_directory_contents_runs, Hlist. simpl.
  unfold mbind, M_bind, mret, M_ret.
  destruct (map_to_list d) as [|[k v] kvs] eqn:Hkvs.
  { by apply map_to_list_empty_iff in Hkvs. }
  done.
Qed.

(** X18.  Given the URL of a file, for whose path the contents API
    answers with a JSON object, [main] creates the download directory,
    sends the listing request and ends with an uncaught [TypeError]:
    nothing is downloaded, and the failure is not reported as an exit
    status. *)
Theorem main_on_file_url_raises_type_error
    b64decode env proc fuel auth url owner repo commit path response d w :
  has_credentials proc auth →
  signed_in env auth →
  stdin_line proc = Some url →
  parse_github_url url = Some (owner, repo, commit, path) →
  makedirs_refused env (download_dir repo commit) = false →
  remote env (contents_url owner repo path commit) auth = Some response →
  status_code response = 200 →
  json response = Some (JObject d) →
  d ≠ ∅ →
  main b64decode env proc (S fuel) w
  = (Uncaught TypeError,
     play [Makedirs (download_dir repo commit);
           Get (contents_url owner repo path commit) auth 15] w).
Proof.
  intros Hcred Hsigned Hin Hparse Hmk Hremote Hstatus Hjson Hd.
  rewrite (main_walks b64decode env proc (S fuel) auth url owner repo commit path w)
    by done.
  assert (Hlist : listing env owner repo path commit auth = (JObject d, true)).
  { unfold listing. rewrite Hremote, Hstatus, Hjson. by rewrite bool_decide_true. }
  unfold mbind at 1, M_bind at 1. unfold os_makedirs at 1. rewrite Hmk.
  unfold emit at 1.
  by rewrite (walk_on_object b64decode env fuel owner repo path
                (download_dir repo commit) commit auth d Hlist Hd).
Qed.

Lemma main_on_file_url_raises_type_error_witness :
  main Sample.b64decode Cases.logged_in
    (Cases.terminal (Some "https://github.com/acme/widgets/blob/abcdef1/src/a.txt"))
    1 fresh
  = (Uncaught TypeError,
     play [Makedirs "github_download/widgets_abcdef1";
           Get (contents_url "acme" "widgets" "src/a.txt" "abcdef1") Sample.auth 15]
       fresh).
Proof.
  assert (Hne : ∀ d : gmap string JValue, d !! "type" = Some (JStr "file") → d ≠ ∅).
  { intros d Hd ->. by rewrite lookup_empty in Hd. }
  eapply (main_on_file_url_raises_type_error Sample.b64decode Cases.logged_in
            (Cases.terminal
               (Some "https://github.com/acme/widgets/blob/abcdef1/src/a.txt"))
            0 Sample.auth "https://github.com/acme/widgets/blob/abcdef1/src/a.txt"
            "acme" "widgets" "abcdef1" "src/a.txt" _ (_ : gmap string JValue) fresh).
  - split; vm_compute; reflexivity.
  - eexists _, _. split; [reflexivity|]. split; reflexivity.
  - reflexivity.
  - vm_compute. reflexivity.
  - reflexivity.
  - vm_compute. reflexivity.
  - reflexivity.
  - reflexivity.
  - apply Hne. vm_compute. reflexivity.
Defined.
